(** * filter-dom-url: the [Filter] class of [src/index.js]

    A shallow embedding of the class that keeps a form's filter controls
    and the query string of the page address in step, and the properties
    of it stated by the specification.

    Layout:
    - [JS]: the pieces of the JavaScript standard library the class calls
      ([String.prototype.split], [Array.prototype.join], [indexOf],
      [splice], plain objects and [Object.keys]);
    - [URLSearchParams]: the query parameter list and its methods;
    - [DOM]: the part of the host page the class reads and writes;
    - the class itself, method by method, under the source's names;
    - the lemmas and the theorems. *)

From Stdlib Require Import List String Ascii Bool Arith ZArith NArith Lia.
From Stdlib Require Import Permutation.
Import ListNotations.
Open Scope string_scope.
Open Scope list_scope.

(* ================================================================== *)
(** ** JavaScript values used by the class *)

Module JS.

(** [s.split(' ')]: the pieces of [s] between occurrences of the separator.
    The result is never empty; the empty string gives one empty piece. *)
Fixpoint split (sep : ascii) (s : string) : list string :=
  match s with
  | EmptyString => [EmptyString]
  | String c s' =>
      if Ascii.eqb c sep then EmptyString :: split sep s'
      else match split sep s' with
           | [] => [String c EmptyString]
           | t :: ts => String c t :: ts
           end
  end.

(** [a.join(sep)]. *)
Definition join (sep : string) (a : list string) : string :=
  String.concat sep a.

(** [String(a)] for an array of strings, which is what a template literal
    or a DOM string setter makes of an array: [a.join(',')]. *)
Definition Array_toString (a : list string) : string := join "," a.

(** [`${v}`] for a value that is a string or [null]. *)
Definition template (v : option string) : string :=
  match v with
  | Some s => s
  | None => "null"
  end.

(** [a.indexOf(x)]: position of the first element strictly equal to [x],
    [-1] when there is none. *)
Fixpoint indexOf (a : list string) (x : string) : Z :=
  match a with
  | [] => (-1)%Z
  | y :: a' =>
      if String.eqb y x then 0%Z
      else let i := indexOf a' x in
           if (i <? 0)%Z then (-1)%Z else (i + 1)%Z
  end.

(** [a.splice(start, deleteCount)], the array left behind.  A negative
    [start] counts from the end of the array. *)
Definition splice (a : list string) (start deleteCount : Z) : list string :=
  let len := Z.of_nat (List.length a) in
  let actualStart :=
    if (start <? 0)%Z then Z.max (len + start) 0 else Z.min start len in
  let actualDeleteCount := Z.min (Z.max deleteCount 0) (len - actualStart) in
  firstn (Z.to_nat actualStart) a
    ++ skipn (Z.to_nat (actualStart + actualDeleteCount)) a.

(** [s.toLowerCase()] on the letters A to Z; element names have no other
    upper-case letters. *)
Definition lowerChar (c : ascii) : ascii :=
  let n := N_of_ascii c in
  if ((65 <=? n) && (n <=? 90))%N then ascii_of_N (n + 32) else c.

Fixpoint toLowerCase (s : string) : string :=
  match s with
  | EmptyString => EmptyString
  | String c s' => String (lowerChar c) (toLowerCase s')
  end.

(** A plain object whose property values are arrays of strings, as an
    association list in creation order with one pair per property name.
    The pair named [__proto__], if there is one, is not an own property: it
    records the prototype of the object, which is what the assignment
    [o['__proto__'] = v] sets and what [o['__proto__']] then reads. *)
Definition Object := list (string * list string).

(** [o[k] = v]. *)
Fixpoint set (o : Object) (k : string) (v : list string) : Object :=
  match o with
  | [] => [(k, v)]
  | (k', v') :: o' =>
      if String.eqb k' k then (k', v) :: o' else (k', v') :: set o' k v
  end.

(** [o[k]], [None] standing for [undefined]. *)
Fixpoint get (o : Object) (k : string) : option (list string) :=
  match o with
  | [] => None
  | (k', v') :: o' => if String.eqb k' k then Some v' else get o' k
  end.

(** Array indices: the canonical decimal strings of the integers from 0 to
    2^32 - 2.  [Object.keys] lists properties named by an array index
    first, in increasing numeric order. *)
Definition digit (c : ascii) : option N :=
  let n := N_of_ascii c in
  if ((48 <=? n) && (n <=? 57))%N then Some (n - 48)%N else None.

Fixpoint digits (acc : N) (s : string) : option N :=
  match s with
  | EmptyString => Some acc
  | String c s' =>
      match digit c with
      | Some d => digits (acc * 10 + d)%N s'
      | None => None
      end
  end.

Definition arrayIndex (s : string) : option N :=
  match s with
  | EmptyString => None
  | String c s' =>
      if Ascii.eqb c "0"
      then (if String.eqb s' "" then Some 0%N else None)
      else match digits 0 s with
           | Some n => if (n <? 4294967295)%N then Some n else None
           | None => None
           end
  end.

Fixpoint insertIndexed (p : N * (string * list string))
    (l : list (N * (string * list string))) :=
  match l with
  | [] => [p]
  | q :: l' => if (fst p <=? fst q)%N then p :: l else q :: insertIndexed p l'
  end.

Definition indexed (o : Object) : list (N * (string * list string)) :=
  fold_right
    (fun kv acc =>
       match arrayIndex (fst kv) with
       | Some n => insertIndexed (n, kv) acc
       | None => acc
       end) [] o.

Definition named (o : Object) : Object :=
  filter (fun kv => match arrayIndex (fst kv) with
                    | Some _ => false
                    | None => negb (String.eqb (fst kv) "__proto__")
                    end) o.

(** The own properties of [o] in the order [Object.keys] enumerates them,
    each with its value: the array indices in increasing order, then the
    other names in creation order; the prototype is not among them. *)
Definition entries (o : Object) : Object :=
  List.map snd (indexed o) ++ named o.

(** [Object.keys(o)]. *)
Definition keys (o : Object) : list string := List.map fst (entries o).

End JS.

(* ================================================================== *)
(** ** URLSearchParams *)

Module URLSearchParams.

(** The list of name-value pairs of a query string, in order; a name may
    occur more than once. *)
Definition t := list (string * string).

(** [[...p.entries()]]. *)
Definition entries (p : t) : list (string * string) := p.

(** [p.has(name)]. *)
Definition has (p : t) (name : string) : bool :=
  existsb (fun kv => String.eqb (fst kv) name) p.

(** [p.get(name)]: the value of the first pair called [name], or [null]. *)
Fixpoint get (p : t) (name : string) : option string :=
  match p with
  | [] => None
  | (k, v) :: p' => if String.eqb k name then Some v else get p' name
  end.

(** [p.delete(name)]: removes every pair called [name]. *)
Definition delete (p : t) (name : string) : t :=
  filter (fun kv => negb (String.eqb (fst kv) name)) p.

(** [p.append(name, value)]. *)
Definition append (p : t) (name value : string) : t := p ++ [(name, value)].

(** [p.set(name, value)]: the first pair called [name] takes the value and
    the other pairs of that name are removed; with no such pair, the pair
    is appended. *)
Fixpoint set (p : t) (name value : string) : t :=
  match p with
  | [] => [(name, value)]
  | (k, v) :: p' =>
      if String.eqb k name then (k, value) :: delete p' name
      else (k, v) :: set p' name value
  end.

End URLSearchParams.

(* ================================================================== *)
(** ** The host page

    The page is a collaborator of the class, not part of it.  What follows
    models the part of the DOM the class reads and writes: elements with
    their attributes and their [value], [checked] and [selected] state,
    [querySelector] with the two attribute selectors the class builds, the
    [value] setter and getter of form controls and the [checked] setter
    with the mutual exclusion of a radio button group.

    Assumptions of the model: the filter attribute is an attribute of its
    own kind (not [value] or [name]); an element called select or input is
    the HTML element of that name; [option] elements carry no filter
    attribute; the radio buttons of a group are all descendants of the
    form, so that checking one never unchecks an element outside it.

    The class pastes names and tokens into selector strings without
    escaping them.  The selectors of the model, [byFilter] and
    [byFilterValue], select by equality, which is what the browser does for
    a string that is [plain]: one without quote, backslash, line break,
    form feed or null character.  For another string the selector the
    browser parses is not the one meant: it may be invalid, and
    [querySelector] then throws a [SyntaxError], or it may select elements
    by other criteria.  The model is faithful for plain names and tokens;
    a statement about the refresh of an arbitrary address has them as a
    hypothesis. *)

Module DOM.

(** The states of the [type] attribute of an [input] element. *)
Inductive InputType :=
| hidden | text | search | tel | url | email | password
| date | month | week | time | datetime_local | number | range | color
| checkbox | radio | file | submit | image | reset | button.

(** The string the [type] property of an [input] returns. *)
Definition type_string (t : InputType) : string :=
  match t with
  | hidden => "hidden" | text => "text" | search => "search" | tel => "tel"
  | url => "url" | email => "email" | password => "password"
  | date => "date" | month => "month" | week => "week" | time => "time"
  | datetime_local => "datetime-local" | number => "number"
  | range => "range" | color => "color" | checkbox => "checkbox"
  | radio => "radio" | file => "file" | submit => "submit"
  | image => "image" | reset => "reset" | button => "button"
  end.

Definition InputType_eqb (a b : InputType) : bool :=
  String.eqb (type_string a) (type_string b).

(** An [option] of a [select]. *)
Record HTMLOptionElement := {
  option_value : string;
  selected : bool
}.

(** An element.  [tagName], [type], [multiple], the three attributes and
    the values of the options are fixed; [own_value], [checked] and the
    [selected] flags of the options are the state the class changes. *)
Record Element := {
  tagName : string;
  type : InputType;
  multiple : bool;
  filterAttr : option string;
  valueAttr : option string;
  nameAttr : option string;
  own_value : string;
  checked : bool;
  options : list HTMLOptionElement
}.

Definition isSelect (e : Element) : bool :=
  String.eqb (JS.toLowerCase (tagName e)) "select".

Definition isInput (e : Element) : bool :=
  String.eqb (JS.toLowerCase (tagName e)) "input".

Definition option_eqb (a b : option string) : bool :=
  match a, b with
  | Some x, Some y => String.eqb x y
  | None, None => true
  | _, _ => false
  end.

(** The selector [[filterAttr="type"]] for a plain [type]. *)
Definition byFilter (type : string) (e : Element) : bool :=
  option_eqb (filterAttr e) (Some type).

(** The selector [[filterAttr="type"][value="v"]] for plain [type] and
    [v]. *)
Definition byFilterValue (type v : string) (e : Element) : bool :=
  option_eqb (filterAttr e) (Some type) && option_eqb (valueAttr e) (Some v).

(** [root.querySelector(sel)]: the first element of [els], the descendants
    of the root in tree order, that [sel] selects, with its position;
    [None] stands for [null]. *)
Fixpoint querySelector (els : list Element) (sel : Element -> bool)
  : option (nat * Element) :=
  match els with
  | [] => None
  | e :: els' =>
      if sel e then Some (0, e)
      else match querySelector els' sel with
           | Some (i, e') => Some (S i, e')
           | None => None
           end
  end.

(** The element at position [i] replaced by its image under [f]. *)
Fixpoint update (i : nat) (f : Element -> Element) (els : list Element)
  : list Element :=
  match els, i with
  | [], _ => []
  | e :: els', 0 => f e :: els'
  | e :: els', S i' => e :: update i' f els'
  end.

Definition with_options (e : Element) (os : list HTMLOptionElement) :=
  {| tagName := tagName e; type := type e; multiple := multiple e;
     filterAttr := filterAttr e; valueAttr := valueAttr e;
     nameAttr := nameAttr e; own_value := own_value e;
     checked := checked e; options := os |}.

Definition with_value (e : Element) (v : string) :=
  {| tagName := tagName e; type := type e; multiple := multiple e;
     filterAttr := filterAttr e; valueAttr := valueAttr e;
     nameAttr := nameAttr e; own_value := v;
     checked := checked e; options := options e |}.

Definition with_checked (e : Element) (b : bool) :=
  {| tagName := tagName e; type := type e; multiple := multiple e;
     filterAttr := filterAttr e; valueAttr := valueAttr e;
     nameAttr := nameAttr e; own_value := own_value e;
     checked := b; options := options e |}.

Definition with_selected (o : HTMLOptionElement) (b : bool) :=
  {| option_value := option_value o; selected := b |}.

(** The [value] setter of a [select]: every option is deselected, then the
    first option whose value is [v], if there is one, is selected. *)
Fixpoint selectValue (v : string) (os : list HTMLOptionElement)
  : list HTMLOptionElement :=
  match os with
  | [] => []
  | o :: os' =>
      if String.eqb (option_value o) v
      then with_selected o true :: List.map (fun o' => with_selected o' false) os'
      else with_selected o false :: selectValue v os'
  end.

(** [e.value = v].  The class calls it on a [select] or on an [input] of
    type color, range, date, month, week or time, which keep their value in
    the element after the host's sanitization for the type. *)
Definition set_value (sanitize : InputType -> string -> string)
    (v : string) (e : Element) : Element :=
  if isSelect e then with_options e (selectValue v (options e))
  else if isInput e then with_value e (sanitize (type e) v)
  else with_value e v.

(** The [value] getter: of a [select], the value of its first selected
    option or the empty string; of a check box or radio button, its
    [value] attribute or ["on"]; otherwise the value the element holds. *)
Definition value (e : Element) : string :=
  if isSelect e then
    match List.find selected (options e) with
    | Some o => option_value o
    | None => ""
    end
  else if isInput e
          && (InputType_eqb (type e) checkbox || InputType_eqb (type e) radio)
  then match valueAttr e with Some v => v | None => "on" end
  else own_value e.

Definition isRadio (e : Element) : bool :=
  isInput e && InputType_eqb (type e) radio.

(** Two radio buttons of one form are in the same group when they share a
    non-empty [name]. *)
Definition sameRadioGroup (a b : Element) : bool :=
  isRadio a && isRadio b
  && match nameAttr a with
     | Some n => negb (String.eqb n "") && option_eqb (nameAttr b) (Some n)
     | None => false
     end.

Fixpoint mapi {A B} (f : nat -> A -> B) (i : nat) (l : list A) : list B :=
  match l with
  | [] => []
  | x :: l' => f i x :: mapi f (S i) l'
  end.

(** [e.checked = true] for the element [target] at position [i]: the other
    radio buttons of its group, if it is one, lose their check.  The group
    is taken to lie within the form. *)
Definition check (i : nat) (target : Element) (els : list Element)
  : list Element :=
  mapi (fun j e =>
          if Nat.eqb j i then with_checked e true
          else if sameRadioGroup target e then with_checked e false
          else e) 0 els.

End DOM.

(* ================================================================== *)
(** ** The class [Filter] *)

Import DOM.

(** An instance together with the page it lives in.  [form] lists the
    descendants of [this.$form] in tree order and [outside] the elements of
    the document that are not in the form; [sanitize] is the host's value
    sanitization of [input] elements; [console] collects the warnings.  The
    attribute names [filterAttr] and [formAttr] are fixed: each element
    records its value of the filter attribute. *)
Record Filter := {
  sanitize : InputType -> string -> string;
  outside : list Element;
  form : list Element;
  urlFilters : URLSearchParams.t;
  console : list string
}.

(** The elements [document.querySelector] searches.  The class only tests
    its result against [null], so the place of the form among the other
    elements is immaterial. *)
Definition document (this : Filter) : list Element :=
  outside this ++ form this.

Definition with_form (this : Filter) (els : list Element) : Filter :=
  {| sanitize := sanitize this; outside := outside this; form := els;
     urlFilters := urlFilters this; console := console this |}.

Definition with_urlFilters (this : Filter) (p : URLSearchParams.t) : Filter :=
  {| sanitize := sanitize this; outside := outside this; form := form this;
     urlFilters := p; console := console this |}.

(** [console.warn(msg)]. *)
Definition console_warn (this : Filter) (msg : string) : Filter :=
  {| sanitize := sanitize this; outside := outside this; form := form this;
     urlFilters := urlFilters this; console := console this ++ [msg] |}.

(** How a method ends: normally, or by a [TypeError] thrown when a property
    of [null] is written.  The state reached is kept in both cases. *)
Inductive Completion := Normal | TypeError.

(** [a.forEach(f)]: a throwing call ends the loop. *)
Fixpoint forEach {A : Type} (a : list A)
    (f : A -> Filter -> Filter * Completion) (this : Filter)
  : Filter * Completion :=
  match a with
  | [] => (this, Normal)
  | x :: a' =>
      match f x this with
      | (this', Normal) => forEach a' f this'
      | thrown => thrown
      end
  end.

(** Lines 26-37.  [None] is the [null] the method returns for an element
    that is neither a select nor an input. *)
Definition _checkFilterType (filter : Element) : option string :=
  let tagName := JS.toLowerCase (tagName filter) in
  if String.eqb tagName "select" then
    Some (if multiple filter then "select-multiple" else "select-single")
  else if String.eqb tagName "input" then
    Some (type_string (type filter))
  else None.

(** Lines 47-64 over a registry of names: [isFilterExist type] tells
    whether some element carries the filter attribute with value [type]. *)
Definition parseFilters (isFilterExist : string -> bool)
    (urlParams : URLSearchParams.t) : JS.Object :=
  let params := URLSearchParams.entries urlParams in
  let objectFilters : JS.Object := [] in
  if Nat.eqb (List.length params) 0 then objectFilters
  else
    fold_left
      (fun objectFilters param =>
         let type := fst param in
         let VALUES := snd param in
         if negb (isFilterExist type) then objectFilters
         else JS.set objectFilters type (JS.split " " VALUES))
      params objectFilters.

(** The registry of the page: [document.querySelector] finds an element,
    for a plain name. *)
Definition isFilterExist (this : Filter) (type : string) : bool :=
  match querySelector (document this) (byFilter type) with
  | Some _ => true
  | None => false
  end.

(** Lines 47-64. *)
Definition _parseFiltersFromUrl (this : Filter)
    (urlParams : URLSearchParams.t) : JS.Object :=
  parseFilters (isFilterExist this) urlParams.

(** [this.$form.querySelector(sel).p = ...]: the assignment [k] is made on
    the element found; on [null] it throws. *)
Definition assign (this : Filter) (sel : Element -> bool)
    (k : nat -> Element -> list Element) : Filter * Completion :=
  match querySelector (form this) sel with
  | Some (i, e) => (with_form this (k i e), Normal)
  | None => (this, TypeError)
  end.

(** The cases of the two [switch] statements that share a body. *)
Definition valueTypes : list string :=
  ["select-single"; "color"; "range"; "date"; "month"; "week"; "time"].

Definition inCases (cases : list string) (filterType : option string) : bool :=
  match filterType with
  | Some t => existsb (String.eqb t) cases
  | None => false
  end.

Definition notSupported (filterType : option string) : string :=
  "Type '" ++ JS.template filterType ++ "' is not yet supported.".

(** Lines 104-112: every option of the select whose value is among the
    tokens is selected; the others are not touched. *)
Definition selectTokens (tokens : list string) (e : Element) : Element :=
  with_options e
    (List.map
       (fun option =>
          if (0 <=? JS.indexOf tokens (option_value option))%Z
          then with_selected option true
          else option)
       (options e)).

(** Lines 85-134, the callback of the [forEach] over the parsed names;
    [tokens] is [objectFilters[type]].  The specification calls it
    [writeControl]. *)
Definition writeControl (type : string) (tokens : list string)
    (this : Filter) : Filter * Completion :=
  match querySelector (form this) (byFilter type) with
  | None => (this, Normal)
  | Some (_, filter) =>
      let filterType := _checkFilterType filter in
      if inCases valueTypes filterType then
        assign this (byFilter type)
          (fun i _ =>
             update i (set_value (sanitize this) (JS.Array_toString tokens))
               (form this))
      else if inCases ["select-multiple"] filterType then
        assign this (byFilter type)
          (fun i _ => update i (selectTokens tokens) (form this))
      else if inCases ["radio"] filterType then
        assign this (byFilterValue type (JS.Array_toString tokens))
          (fun i e => check i e (form this))
      else if inCases ["checkbox"] filterType then
        forEach tokens
          (fun value this =>
             assign this (byFilterValue type value)
               (fun i e => check i e (form this)))
          this
      else (console_warn this (notSupported filterType), Normal)
  end.

(** Lines 80-135. *)
Definition _updateFiltersFromUrl (this : Filter)
    (urlParams : URLSearchParams.t) : Filter * Completion :=
  let objectFilters := _parseFiltersFromUrl this urlParams in
  if Nat.eqb (List.length (JS.keys objectFilters)) 0 then (this, Normal)
  else
    forEach (JS.entries objectFilters)
      (fun entry this => writeControl (fst entry) (snd entry) this)
      this.

(** Lines 142-197.  [filter] is [e.target], the control that changed.
    [getAttribute] gives a string or [null], which the methods of
    [URLSearchParams] turn into a string.  The specification calls the
    method [deriveUpdate]. *)
Definition _updateUrlFromFilters (this : Filter) (filter : Element) : Filter :=
  let filterName := JS.template (filterAttr filter) in
  let filterType := _checkFilterType filter in
  let urlFilters := urlFilters this in
  if inCases ("radio" :: valueTypes) filterType then
    if negb (String.eqb (value filter) "") then
      with_urlFilters this
        (URLSearchParams.set urlFilters filterName (value filter))
    else
      with_urlFilters this (URLSearchParams.delete urlFilters filterName)
  else if inCases ["select-multiple"] filterType then
    let filterValues :=
      List.map option_value (List.filter selected (options filter)) in
    with_urlFilters this
      (URLSearchParams.set urlFilters filterName (JS.join " " filterValues))
  else if inCases ["checkbox"] filterType then
    let filterParams :=
      JS.split " " (JS.template (URLSearchParams.get urlFilters filterName)) in
    if URLSearchParams.has urlFilters filterName then
      if checked filter then
        with_urlFilters this
          (URLSearchParams.set urlFilters filterName
             (JS.template (URLSearchParams.get urlFilters filterName)
                ++ " " ++ value filter)%string)
      else if Nat.ltb 1 (List.length filterParams) then
        let urlFilters := URLSearchParams.delete urlFilters filterName in
        let filterParams :=
          JS.splice filterParams (JS.indexOf filterParams (value filter)) 1 in
        with_urlFilters this
          (URLSearchParams.set urlFilters filterName (JS.join " " filterParams))
      else
        with_urlFilters this (URLSearchParams.delete urlFilters filterName)
    else
      with_urlFilters this
        (URLSearchParams.append urlFilters filterName (value filter))
  else console_warn this (notSupported filterType).

(** Lines 268-270, [refresh] in the specification. *)
Definition updateFilters (this : Filter) : Filter * Completion :=
  _updateFiltersFromUrl this (urlFilters this).

(** Lines 304-306: the FilterState of the specification. *)
Definition getFiltersFromUrl (this : Filter) : JS.Object :=
  _parseFiltersFromUrl this (urlFilters this).

(** A series of change events, each handled by [_updateUrlFromFilters]. *)
Definition changeEvents (this : Filter) (targets : list Element) : Filter :=
  fold_left _updateUrlFromFilters targets this.

(* ================================================================== *)
(** ** Notions used by the statements *)

(** A token is a string without the separator. *)
Fixpoint spaceFree (s : string) : bool :=
  match s with
  | EmptyString => true
  | String c s' => negb (Ascii.eqb c " ") && spaceFree s'
  end.


(** The pairs of a parameter list that carry the name [name]. *)
Definition named (p : URLSearchParams.t) (name : string) : URLSearchParams.t :=
  filter (fun kv => String.eqb (fst kv) name) p.

(** One turn of the loop of [parseFilters]. *)
Definition parseStep (isFilterExist : string -> bool)
    (objectFilters : JS.Object) (param : string * string) : JS.Object :=
  if negb (isFilterExist (fst param)) then objectFilters
  else JS.set objectFilters (fst param) (JS.split " " (snd param)).

(** What the parsed object holds under a name, by the pairs of that name:
    the tokens of the last pair when the name is registered. *)
Fixpoint lastTokens (isFilterExist : string -> bool) (name : string)
    (p : URLSearchParams.t) (r : option (list string))
  : option (list string) :=
  match p with
  | [] => r
  | kv :: p' =>
      lastTokens isFilterExist name p'
        (if String.eqb (fst kv) name && isFilterExist (fst kv)
         then Some (JS.split " " (snd kv)) else r)
  end.

(* ================================================================== *)
(** ** Sample pages *)

Module Sample.

Definition select (tag : string) (isMultiple : bool) (name : string)
    (os : list (string * bool)) : Element :=
  {| tagName := tag; type := text; multiple := isMultiple;
     filterAttr := Some name; valueAttr := None; nameAttr := Some name;
     own_value := ""; checked := false;
     options := List.map (fun o => {| option_value := fst o;
                                      selected := snd o |}) os |}.

Definition input (ty : InputType) (name v : string) (isChecked : bool)
  : Element :=
  {| tagName := "INPUT"; type := ty; multiple := false;
     filterAttr := Some name; valueAttr := Some v; nameAttr := Some name;
     own_value := v; checked := isChecked; options := [] |}.

(** A page whose controls are all in the form, with a host that stores the
    values of inputs as they are assigned. *)
Definition page (els : list Element) (params : URLSearchParams.t) : Filter :=
  {| sanitize := fun _ v => v; outside := []; form := els;
     urlFilters := params; console := [] |}.

End Sample.

(** The array without the first occurrence of [x]. *)
Fixpoint removeFirst (x : string) (a : list string) : list string :=
  match a with
  | [] => []
  | y :: a' => if String.eqb y x then a' else y :: removeFirst x a'
  end.

(* ================================================================== *)
(** ** The fixed and the changing part of a form *)

(** What the class never changes in an element. *)
Definition shape (e : Element) :=
  (tagName e, type e, multiple e, filterAttr e, valueAttr e, nameAttr e,
   List.map option_value (options e)).

(** What it changes: the value held, the check, the selection of the
    option at a position. *)
Inductive Field := FValue | FChecked | FSelected (j : nat).

Inductive Val := VString (s : string) | VBool (b : bool).

Definition read (e : Element) (f : Field) : option Val :=
  match f with
  | FValue => Some (VString (own_value e))
  | FChecked => Some (VBool (checked e))
  | FSelected j =>
      option_map VBool (nth_error (List.map selected (options e)) j)
  end.

Definition readAt (els : list Element) (i : nat) (f : Field) : option Val :=
  match nth_error els i with
  | Some e => read e f
  | None => None
  end.

(** Two forms of the same shape, [s] and [t], taken to [s'] and [t']: each
    field was either given the same content in both or left as it was in
    both. *)
Definition Overwritten (s t s' t' : list Element) : Prop :=
  forall i f,
    readAt s' i f = readAt t' i f
    \/ (readAt s' i f = readAt s i f /\ readAt t' i f = readAt t i f).

(** The same page and query parameters, up to the state of the controls
    and the console. *)
Definition samePage (a b : Filter) : Prop :=
  sanitize b = sanitize a
  /\ outside b = outside a
  /\ urlFilters b = urlFilters a
  /\ List.map shape (form b) = List.map shape (form a).

(** A method that writes controls only by overwriting fields with contents
    fixed by the page. *)
Definition Overwriting (m : Filter -> Filter * Completion) : Prop :=
  forall a b,
    samePage a b ->
    snd (m a) = snd (m b)
    /\ samePage a (fst (m a))
    /\ samePage b (fst (m b))
    /\ Overwritten (form a) (form b) (form (fst (m a))) (form (fst (m b))).

(** The types of [input] that neither [switch] has a case for. *)
Definition otherInputTypes : list InputType :=
  [hidden; text; search; tel; url; email; password; datetime_local; number;
   file; submit; image; reset; button].

(** The callback of the check box case of [writeControl], lines 122-126. *)
Definition checkMember (type value : string) (this : Filter)
  : Filter * Completion :=
  assign this (byFilterValue type value) (fun i e => check i e (form this)).


(** Whether some option of the element has the value [v]. *)
Definition hasOption (v : string) (e : Element) : bool :=
  existsb (fun o => String.eqb (option_value o) v) (options e).

(** The options of the element that are selected or have a value among
    the tokens. *)
Definition selectedOrToken (tokens : list string) (e : Element)
  : list HTMLOptionElement :=
  List.filter
    (fun o => selected o || (0 <=? JS.indexOf tokens (option_value o))%Z)
    (options e).

(** Lines 219-221, the loop of [_resetGlobalUrl]: the names are parsed
    once, then each is deleted from [this.urlFilters].  Line 223 hands the
    resulting list to the address of the page, which belongs to the host. *)
Definition _resetGlobalUrl_loop (this : Filter) : Filter :=
  with_urlFilters this
    (fold_left URLSearchParams.delete
       (JS.keys (_parseFiltersFromUrl this (urlFilters this)))
       (urlFilters this)).






(** A character that stands for itself inside a double-quoted CSS string:
    not the null character, a line feed, form feed or carriage return, the
    double quote or the backslash. *)
Definition plainChar (c : ascii) : bool :=
  negb (existsb (N.eqb (N_of_ascii c)) [0; 10; 12; 13; 34; 92]%N).

(** A string the class can paste into a selector and have it compared by
    equality. *)
Fixpoint plain (s : string) : bool :=
  match s with
  | EmptyString => true
  | String c s' => plainChar c && plain s'
  end.

(** Queries whose names, and whose names and values, are plain. *)
Definition plainNames (p : URLSearchParams.t) : bool :=
  forallb (fun kv => plain (fst kv)) p.

Definition plainQuery (p : URLSearchParams.t) : bool :=
  forallb (fun kv => plain (fst kv) && plain (snd kv)) p.
(* ================================================================== *)
(** * Properties *)

(** ** The library functions on examples *)

Example split_two : JS.split " " "red blue" = ["red"; "blue"].
Proof. reflexivity. Qed.

Example split_empty : JS.split " " "" = [""].
Proof. reflexivity. Qed.

Example split_gap : JS.split " " "a  b " = ["a"; ""; "b"; ""].
Proof. reflexivity. Qed.

Example splice_minus_one :
  JS.splice ["a"; "b"; "c"] (JS.indexOf ["a"; "b"; "c"] "z") 1 = ["a"; "b"].
Proof. reflexivity. Qed.

Example splice_middle :
  JS.splice ["a"; "b"; "c"] (JS.indexOf ["a"; "b"; "c"] "b") 1 = ["a"; "c"].
Proof. reflexivity. Qed.

Example keys_order :
  JS.keys (JS.set (JS.set (JS.set (JS.set [] "b" []) "10" []) "a" []) "9" [])
  = ["9"; "10"; "b"; "a"].
Proof. reflexivity. Qed.

(* ================================================================== *)
(** ** Tokens and their serialization *)

Lemma split_not_nil (sep : ascii) (s : string) : JS.split sep s <> [].
Proof.
  induction s as [|c s IH]; simpl; [discriminate|].
  destruct (Ascii.eqb c sep); [discriminate|].
  destruct (JS.split sep s); discriminate.
Qed.

Lemma split_length (sep : ascii) (s : string) :
  1 <= List.length (JS.split sep s).
Proof.
  pose proof (split_not_nil sep s) as H.
  destruct (JS.split sep s); [congruence | simpl; lia].
Qed.

Lemma split_spaceFree (s : string) :
  spaceFree s = true -> JS.split " " s = [s].
Proof.
  induction s as [|c s IH]; simpl; [reflexivity|].
  intros H. apply andb_true_iff in H as [Hc Hs].
  apply negb_true_iff in Hc. rewrite Hc, (IH Hs). reflexivity.
Qed.


Lemma split_tokens (s : string) :
  Forall (fun t => spaceFree t = true) (JS.split " " s).
Proof.
  induction s as [|c s IH]; simpl; [repeat constructor|].
  destruct (Ascii.eqb c " ") eqn:Hc.
  - constructor; [reflexivity | exact IH].
  - destruct (JS.split " " s) as [|t ts].
    + repeat constructor. simpl. now rewrite Hc.
    + inversion IH; subst. constructor; [|assumption].
      simpl. rewrite Hc. assumption.
Qed.


(** Joining undoes splitting. *)
Lemma join_split (s : string) : JS.join " " (JS.split " " s) = s.
Proof.
  unfold JS.join.
  induction s as [|c s IH]; [reflexivity|].
  simpl JS.split. destruct (Ascii.eqb c " ") eqn:Hc.
  - apply Ascii.eqb_eq in Hc. subst c.
    pose proof (split_not_nil " " s) as Hn.
    destruct (JS.split " " s) as [|t ts]; [congruence|].
    change (String.concat " " ("" :: t :: ts))
      with (String " " (String.concat " " (t :: ts))).
    now rewrite IH.
  - pose proof (split_not_nil " " s) as Hn.
    destruct (JS.split " " s) as [|t ts]; [congruence|].
    destruct ts as [|u ts].
    + simpl in *. now rewrite IH.
    + change (String.concat " " (String c t :: u :: ts))
        with (String c (String.concat " " (t :: u :: ts))).
      now rewrite IH.
Qed.

(* ================================================================== *)
(** ** The query parameter list *)

Lemma has_get (p : URLSearchParams.t) (name : string) :
  URLSearchParams.has p name = false <-> URLSearchParams.get p name = None.
Proof.
  induction p as [|[k v] p IH]; simpl; [tauto|].
  destruct (String.eqb k name); simpl; [split; discriminate | exact IH].
Qed.

Lemma has_delete (p : URLSearchParams.t) (name : string) :
  URLSearchParams.has (URLSearchParams.delete p name) name = false.
Proof.
  induction p as [|[k v] p IH]; simpl; [reflexivity|].
  destruct (String.eqb k name) eqn:E; simpl; [exact IH|].
  now rewrite E.
Qed.

Lemma get_delete (p : URLSearchParams.t) (name : string) :
  URLSearchParams.get (URLSearchParams.delete p name) name = None.
Proof. apply has_get, has_delete. Qed.

Lemma get_set (p : URLSearchParams.t) (name v : string) :
  URLSearchParams.get (URLSearchParams.set p name v) name = Some v.
Proof.
  induction p as [|[k w] p IH]; simpl.
  - now rewrite String.eqb_refl.
  - destruct (String.eqb k name) eqn:E; simpl; now rewrite E.
Qed.

Lemma get_append (p : URLSearchParams.t) (name v : string) :
  URLSearchParams.has p name = false ->
  URLSearchParams.get (URLSearchParams.append p name v) name = Some v.
Proof.
  unfold URLSearchParams.append.
  induction p as [|[k w] p IH]; simpl.
  - now rewrite String.eqb_refl.
  - destruct (String.eqb k name); simpl; [discriminate | exact IH].
Qed.

Lemma named_delete (p : URLSearchParams.t) (name : string) :
  named (URLSearchParams.delete p name) name = [].
Proof.
  unfold named, URLSearchParams.delete.
  induction p as [|[k v] p IH]; simpl; [reflexivity|].
  destruct (String.eqb k name) eqn:E; simpl; [exact IH|].
  now rewrite E.
Qed.

(** After [set] the name occurs once, with the value set. *)
Lemma named_set (p : URLSearchParams.t) (name v : string) :
  named (URLSearchParams.set p name v) name = [(name, v)].
Proof.
  induction p as [|[k w] p IH]; simpl.
  - now rewrite String.eqb_refl.
  - destruct (String.eqb k name) eqn:E; simpl; rewrite E.
    + apply String.eqb_eq in E. subst k.
      f_equal. apply named_delete.
    + exact IH.
Qed.

Lemma named_append (p : URLSearchParams.t) (name v : string) :
  URLSearchParams.has p name = false ->
  named (URLSearchParams.append p name v) name = [(name, v)].
Proof.
  unfold URLSearchParams.append, named.
  induction p as [|[k w] p IH]; simpl.
  - now rewrite String.eqb_refl.
  - destruct (String.eqb k name); simpl; [discriminate | exact IH].
Qed.


(* ================================================================== *)
(** ** Parsing *)

Section Parse.

Variable isFilterExist : string -> bool.

(** The early return on an empty list agrees with the loop. *)
Lemma parseFilters_fold (p : URLSearchParams.t) :
  parseFilters isFilterExist p = fold_left (parseStep isFilterExist) p [].
Proof. destruct p; reflexivity. Qed.

Lemma get_JS_set (o : JS.Object) (k k' : string) (v : list string) :
  JS.get (JS.set o k v) k' = if String.eqb k k' then Some v else JS.get o k'.
Proof.
  induction o as [|[k0 v0] o IH]; simpl.
  - reflexivity.
  - destruct (String.eqb k0 k) eqn:E; simpl.
    + apply String.eqb_eq in E. subst k0.
      destruct (String.eqb k k'); reflexivity.
    + destruct (String.eqb k0 k') eqn:E'; [|exact IH].
      apply String.eqb_eq in E'. subst k0. now rewrite String.eqb_sym, E.
Qed.

Lemma keys_JS_set (o : JS.Object) (k : string) (v : list string) :
  forall k', In k' (List.map fst (JS.set o k v)) ->
             k' = k \/ In k' (List.map fst o).
Proof.
  induction o as [|[k0 v0] o IH]; simpl; intros k' H.
  - destruct H as [H|[]]; auto.
  - destruct (String.eqb k0 k); simpl in H; destruct H as [H|H]; auto.
    destruct (IH _ H); auto.
Qed.

Lemma Forall_JS_set (P : string * list string -> Prop) (o : JS.Object)
    (k : string) (v : list string) :
  (forall k', P (k', v)) -> Forall P o -> Forall P (JS.set o k v).
Proof.
  intros Hv. induction 1 as [|[k0 v0] o H0 Ho IH]; simpl.
  - constructor; [apply Hv | constructor].
  - destruct (String.eqb k0 k); constructor; auto.
Qed.

Lemma get_fold_parse (name : string) (p : URLSearchParams.t) :
  forall o, JS.get (fold_left (parseStep isFilterExist) p o) name
            = lastTokens isFilterExist name p (JS.get o name).
Proof.
  induction p as [|[k v] p IH]; intros o; simpl; [reflexivity|].
  rewrite IH. f_equal. unfold parseStep. simpl.
  destruct (isFilterExist k); simpl.
  - rewrite get_JS_set. now rewrite andb_true_r.
  - now rewrite andb_false_r.
Qed.

Lemma lastTokens_named (name : string) (p : URLSearchParams.t) :
  forall r, lastTokens isFilterExist name p r = lastTokens isFilterExist name (named p name) r.
Proof.
  unfold named.
  induction p as [|[k v] p IH]; intros r; simpl; [reflexivity|].
  destruct (String.eqb k name) eqn:E; simpl.
  - rewrite E. simpl. apply IH.
  - apply IH.
Qed.

(** The entry of a name depends only on the pairs of that name. *)
Lemma get_parse_named (name : string) (p : URLSearchParams.t) :
  JS.get (parseFilters isFilterExist p) name
  = lastTokens isFilterExist name (named p name) None.
Proof.
  rewrite parseFilters_fold, get_fold_parse. simpl. apply lastTokens_named.
Qed.


Lemma get_parse_single (name v : string) (p : URLSearchParams.t) :
  named p name = [(name, v)] -> isFilterExist name = true ->
  JS.get (parseFilters isFilterExist p) name = Some (JS.split " " v).
Proof.
  intros H R. rewrite get_parse_named, H. simpl.
  now rewrite String.eqb_refl, R.
Qed.

Lemma parse_keys_registered (p : URLSearchParams.t) :
  forall o,
    Forall (fun k => isFilterExist k = true) (List.map fst o) ->
    Forall (fun k => isFilterExist k = true)
           (List.map fst (fold_left (parseStep isFilterExist) p o)).
Proof.
  induction p as [|[k v] p IH]; intros o Ho; simpl; [exact Ho|].
  apply IH. unfold parseStep. simpl.
  destruct (isFilterExist k) eqn:R; simpl; [|exact Ho].
  apply Forall_forall. intros k' Hk'.
  apply keys_JS_set in Hk' as [->|Hk']; [exact R|].
  rewrite Forall_forall in Ho. now apply Ho.
Qed.

(** Every name of a parsed object has at least one token. *)
Lemma parse_tokens_not_empty (p : URLSearchParams.t) :
  Forall (fun kv => 1 <= List.length (snd kv)) (parseFilters isFilterExist p).
Proof.
  rewrite parseFilters_fold.
  cut (forall o, Forall (fun kv => 1 <= List.length (snd kv)) o ->
                 Forall (fun kv => 1 <= List.length (snd kv))
                        (fold_left (parseStep isFilterExist) p o)).
  { intros H. apply H. constructor. }
  induction p as [|[k v] p IH]; intros o Ho; simpl; [exact Ho|].
  apply IH. unfold parseStep. simpl.
  destruct (isFilterExist k); simpl; [|exact Ho].
  apply Forall_JS_set; [|exact Ho].
  intros k'. simpl. apply split_length.
Qed.

End Parse.

(** [Object.keys] enumerates each own property once, whatever the order. *)
Lemma In_insertIndexed (x p : N * (string * list string)) l :
  In x (JS.insertIndexed p l) <-> x = p \/ In x l.
Proof.
  induction l as [|q l IH]; simpl.
  - intuition congruence.
  - destruct (fst p <=? fst q)%N; simpl; [intuition congruence|].
    rewrite IH. intuition congruence.
Qed.

Lemma In_indexed (kv : string * list string) (o : JS.Object) :
  In kv (List.map snd (JS.indexed o))
  <-> In kv o /\ JS.arrayIndex (fst kv) <> None.
Proof.
  induction o as [|kv' o IH]; simpl.
  - tauto.
  - destruct (JS.arrayIndex (fst kv')) as [n|] eqn:E.
    + rewrite in_map_iff. split.
      * intros [[m x] [Hx Hin]]. simpl in Hx. subst x.
        apply In_insertIndexed in Hin as [Hin|Hin].
        -- inversion Hin; subst. split; [now left | congruence].
        -- assert (H : In kv (List.map snd (JS.indexed o)))
             by (apply in_map_iff; exists (m, kv); auto).
           apply IH in H. tauto.
      * intros [[->|Hin] Hne].
        -- exists (n, kv). split; [reflexivity|].
           apply In_insertIndexed. now left.
        -- assert (H : In kv (List.map snd (JS.indexed o)))
             by (apply IH; tauto).
           apply in_map_iff in H as [[m x] [Hx H]]. simpl in Hx. subst x.
           exists (m, kv). split; [reflexivity|].
           apply In_insertIndexed. now right.
    + rewrite IH. split.
      * intros [H1 H2]. tauto.
      * intros [[->|H1] H2]; [congruence | tauto].
Qed.

Lemma arrayIndex_proto (k : string) (n : N) :
  JS.arrayIndex k = Some n -> k <> "__proto__".
Proof. intros H ->. discriminate. Qed.

Lemma In_entries (kv : string * list string) (o : JS.Object) :
  In kv (JS.entries o) <-> In kv o /\ fst kv <> "__proto__".
Proof.
  unfold JS.entries, JS.named.
  rewrite in_app_iff, In_indexed, filter_In.
  destruct (JS.arrayIndex (fst kv)) as [n|] eqn:E.
  - apply arrayIndex_proto in E. intuition congruence.
  - rewrite negb_true_iff, String.eqb_neq. intuition congruence.
Qed.

Lemma In_keys (k : string) (o : JS.Object) :
  In k (JS.keys o) <-> In k (List.map fst o) /\ k <> "__proto__".
Proof.
  unfold JS.keys. rewrite !in_map_iff. split.
  - intros [kv [H1 H2]]. apply In_entries in H2 as [H2 H3].
    split; [exists kv; auto | congruence].
  - intros [[kv [H1 H2]] H3]. exists kv. split; [exact H1|].
    apply In_entries. split; [exact H2 | congruence].
Qed.

Lemma get_None_map (o : JS.Object) (k : string) :
  JS.get o k = None <-> ~ In k (List.map fst o).
Proof.
  induction o as [|[k0 v0] o IH]; simpl; [tauto|].
  destruct (String.eqb k0 k) eqn:E.
  - apply String.eqb_eq in E. subst. split; [discriminate | tauto].
  - apply String.eqb_neq in E. rewrite IH. tauto.
Qed.

Lemma get_None_keys (o : JS.Object) (k : string) :
  JS.get o k = None -> ~ In k (JS.keys o).
Proof. rewrite In_keys, get_None_map. tauto. Qed.

Lemma keys_get (o : JS.Object) (k : string) :
  k <> "__proto__" -> JS.get o k <> None -> In k (JS.keys o).
Proof.
  intros Hk Hg. rewrite In_keys. split; [|exact Hk].
  destruct (in_dec string_dec k (List.map fst o)) as [|N]; [assumption|].
  apply get_None_map in N. congruence.
Qed.

(** C5.  Whatever the query parameters and the registry of names, the
    parsed FilterState has no entry for a name that is not registered, it
    is empty when none of the parameter names is registered, and for an
    empty parameter list it is the empty mapping whatever the registry. *)
Theorem parse_drops_unregistered
    (isFilterExist : string -> bool) (urlParams : URLSearchParams.t) :
  (forall name, isFilterExist name = false ->
     JS.get (parseFilters isFilterExist urlParams) name = None
     /\ ~ In name (JS.keys (parseFilters isFilterExist urlParams)))
  /\ ((forall name, URLSearchParams.has urlParams name = true ->
                    isFilterExist name = false) ->
      parseFilters isFilterExist urlParams = [])
  /\ parseFilters isFilterExist [] = [].
Proof.
  split; [|split].
  - intros name R.
    assert (H : JS.get (parseFilters isFilterExist urlParams) name = None).
    { rewrite parseFilters_fold, get_fold_parse. simpl.
      generalize (@None (list string)).
      induction urlParams as [|[k v] p IH]; intros r; simpl; [reflexivity|].
      destruct (String.eqb k name) eqn:E; simpl; [|apply IH].
      apply String.eqb_eq in E. subst k. rewrite R. apply IH. }
    split; [exact H | now apply get_None_keys].
  - intros H. rewrite parseFilters_fold.
    induction urlParams as [|[k v] p IH]; simpl; [reflexivity|].
    unfold parseStep at 2. simpl.
    rewrite (H k) by (simpl; now rewrite String.eqb_refl). simpl.
    apply IH. intros name Hn. apply H. simpl. rewrite Hn. apply orb_true_r.
  - reflexivity.
Qed.

Lemma parse_drops_unregistered_witness :
  JS.get (parseFilters (fun _ => false) [("unknownFilter", "a b")])
         "unknownFilter" = None
  /\ parseFilters (fun _ => false) [("unknownFilter", "a b")] = [].
Proof.
  destruct (parse_drops_unregistered (fun _ => false)
              [("unknownFilter", "a b")]) as [H1 [H2 _]].
  split.
  - apply (H1 "unknownFilter"). reflexivity.
  - apply H2. intros name _. reflexivity.
Defined.

(* ================================================================== *)
(** ** [indexOf] and [splice] *)

Lemma indexOf_range (a : list string) (x : string) :
  (-1 <= JS.indexOf a x < Z.of_nat (List.length a))%Z.
Proof.
  induction a as [|y a IH]; simpl JS.indexOf; simpl List.length; [lia|].
  destruct (String.eqb y x); [lia|].
  destruct (JS.indexOf a x <? 0)%Z eqn:E; [lia|].
  apply Z.ltb_ge in E. lia.
Qed.

Lemma indexOf_absent (a : list string) (x : string) :
  ~ In x a -> JS.indexOf a x = (-1)%Z.
Proof.
  induction a as [|y a IH]; simpl; [reflexivity|].
  intros H. destruct (String.eqb y x) eqn:E.
  - apply String.eqb_eq in E. tauto.
  - rewrite IH by tauto. reflexivity.
Qed.

Lemma indexOf_present (a : list string) (x : string) :
  In x a -> (0 <= JS.indexOf a x)%Z.
Proof.
  induction a as [|y a IH]; simpl; [tauto|].
  intros H. destruct (String.eqb y x) eqn:E; [lia|].
  apply String.eqb_neq in E. destruct H as [H|H]; [congruence|].
  specialize (IH H).
  destruct (JS.indexOf a x <? 0)%Z eqn:L; [apply Z.ltb_lt in L; lia | lia].
Qed.

Lemma splice_one (a : list string) (n : nat) :
  n < List.length a ->
  JS.splice a (Z.of_nat n) 1 = firstn n a ++ skipn (S n) a.
Proof.
  intros H. unfold JS.splice.
  replace (Z.of_nat n <? 0)%Z with false by (symmetry; apply Z.ltb_ge; lia).
  rewrite Z.min_l by lia.
  rewrite Z.max_l by lia.
  rewrite Z.min_l by lia.
  rewrite Nat2Z.id.
  replace (Z.to_nat (Z.of_nat n + 1)) with (S n) by lia.
  reflexivity.
Qed.


Lemma splice_indexOf (a : list string) (x : string) :
  In x a -> JS.splice a (JS.indexOf a x) 1 = removeFirst x a.
Proof.
  intros H.
  assert (G : exists n, JS.indexOf a x = Z.of_nat n /\ n < List.length a
                        /\ firstn n a ++ skipn (S n) a = removeFirst x a).
  { induction a as [|y a IH]; [destruct H|].
    simpl JS.indexOf. simpl removeFirst.
    destruct (String.eqb y x) eqn:E.
    - exists 0. simpl. repeat split; lia.
    - apply String.eqb_neq in E. destruct H as [H|H]; [congruence|].
      destruct (IH H) as [n [Hn [Hl Hr]]].
      exists (S n). rewrite Hn.
      replace (Z.of_nat n <? 0)%Z with false
        by (symmetry; apply Z.ltb_ge; lia).
      repeat split; [lia | simpl; lia |].
      change (firstn (S n) (y :: a)) with (y :: firstn n a).
      change (skipn (S (S n)) (y :: a)) with (skipn (S n) a).
      rewrite <- app_comm_cons. now rewrite Hr. }
  destruct G as [n [Hn [Hl Hr]]].
  rewrite Hn, splice_one by assumption. exact Hr.
Qed.





(* ================================================================== *)
(** ** The registry of the page *)

Lemma option_eqb_refl (a : option string) : option_eqb a a = true.
Proof. destruct a; simpl; [apply String.eqb_refl | reflexivity]. Qed.

Lemma option_eqb_eq (a b : option string) : option_eqb a b = true <-> a = b.
Proof.
  destruct a, b; simpl; try (split; congruence).
  rewrite String.eqb_eq. split; congruence.
Qed.

Lemma querySelector_In (els : list Element) (sel : Element -> bool) e :
  In e els -> sel e = true -> querySelector els sel <> None.
Proof.
  induction els as [|e' els IH]; simpl; [tauto|].
  intros [->|H] S.
  - rewrite S. discriminate.
  - destruct (sel e'); [discriminate|].
    specialize (IH H S). destruct (querySelector els sel) as [[i x]|];
      [discriminate | congruence].
Qed.

(** A control of the form is registered under its filter name. *)
Lemma registered (this : Filter) (filter : Element) (name : string) :
  In filter (form this) -> filterAttr filter = Some name ->
  isFilterExist this name = true.
Proof.
  intros Hin Hn. unfold isFilterExist.
  assert (H : querySelector (document this) (byFilter name) <> None).
  { apply querySelector_In with (e := filter).
    - unfold document. apply in_or_app. now right.
    - unfold byFilter. rewrite Hn. apply option_eqb_refl. }
  destruct (querySelector (document this) (byFilter name));
    [reflexivity | congruence].
Qed.

(** The FilterState entry of a name after the parameter is set. *)
Lemma state_set (this : Filter) (p : URLSearchParams.t) (name v : string) :
  isFilterExist this name = true ->
  JS.get (getFiltersFromUrl
            (with_urlFilters this (URLSearchParams.set p name v))) name
  = Some (JS.split " " v).
Proof.
  intros R. unfold getFiltersFromUrl, _parseFiltersFromUrl. simpl.
  apply get_parse_single; [apply named_set | exact R].
Qed.


(** Every FilterState the class parses gives each of its names at least
    one token. *)
Lemma state_tokens_not_empty (this : Filter) :
  Forall (fun kv => 1 <= List.length (snd kv)) (getFiltersFromUrl this).
Proof. apply parse_tokens_not_empty. Qed.

(* ================================================================== *)
(** ** Change events: [_updateUrlFromFilters] *)







(** A multiple select with no option selected keeps its name, with the
    empty string as the only token. *)
Lemma multi_select_emptied (this : Filter) (filter : Element) (name : string) :
  In filter (form this) ->
  filterAttr filter = Some name ->
  _checkFilterType filter = Some "select-multiple" ->
  List.filter selected (options filter) = [] ->
  JS.get (getFiltersFromUrl (_updateUrlFromFilters this filter)) name
  = Some [""].
Proof.
  intros Hin Hn Ht He.
  pose proof (registered this filter name Hin Hn) as R.
  unfold _updateUrlFromFilters. rewrite Ht, Hn, He. simpl.
  now rewrite state_set.
Qed.

(** C1 at its failing input: after every option of a multiple select is
    deselected, the name stays in the FilterState with one empty token. *)
Theorem multi_select_emptied_keeps_name :
  let filter :=
    Sample.select "SELECT" true "tags" [("a", false); ("b", false)] in
  let this := Sample.page [filter] [("tags", "a")] in
  List.map option_value (List.filter selected (options filter)) = []
  /\ urlFilters (_updateUrlFromFilters this filter) = [("tags", "")]
  /\ getFiltersFromUrl (_updateUrlFromFilters this filter) = [("tags", [""])].
Proof. cbv zeta. repeat split. Qed.

(** The existing tokens of a check box name, as the method reads them. *)
Lemma has_of_get (p : URLSearchParams.t) (name v : string) :
  URLSearchParams.get p name = Some v -> URLSearchParams.has p name = true.
Proof.
  intros H. destruct (URLSearchParams.has p name) eqn:E; [reflexivity|].
  apply has_get in E. congruence.
Qed.





(** C4 at its failing input: with the tokens red and blue for the name
    color, the uncheck event of the check box green, which is not among
    them, removes blue. *)
Theorem uncheck_green_removes_blue :
  let filter := Sample.input checkbox "color" "green" false in
  let this := Sample.page [filter] [("color", "red blue")] in
  getFiltersFromUrl this = [("color", ["red"; "blue"])]
  /\ urlFilters (_updateUrlFromFilters this filter) = [("color", "red")]
  /\ getFiltersFromUrl (_updateUrlFromFilters this filter)
     = [("color", ["red"])].
Proof. cbv zeta. repeat split. Qed.

(** The inclusive-group scenario of the specification. *)
Example uncheck_blue_then_red :
  let blue := Sample.input checkbox "color" "blue" false in
  let red := Sample.input checkbox "color" "red" false in
  let this := Sample.page [red; blue] [("color", "red blue")] in
  getFiltersFromUrl (changeEvents this [blue]) = [("color", ["red"])]
  /\ getFiltersFromUrl (changeEvents this [blue; red]) = [].
Proof. cbv zeta. split; reflexivity. Qed.

Example check_m_then_l :
  let m := Sample.input checkbox "size" "m" true in
  let l := Sample.input checkbox "size" "l" true in
  let this := Sample.page [m; l] [] in
  getFiltersFromUrl (changeEvents this [m]) = [("size", ["m"])]
  /\ getFiltersFromUrl (changeEvents this [m; l]) = [("size", ["m"; "l"])].
Proof. cbv zeta. split; reflexivity. Qed.

(* ================================================================== *)
(** ** Writing controls: [writeControl] *)

Lemma querySelector_Some (els : list Element) (sel : Element -> bool) i e :
  querySelector els sel = Some (i, e) ->
  nth_error els i = Some e /\ sel e = true.
Proof.
  revert i. induction els as [|e' els IH]; intros i; simpl; [discriminate|].
  destruct (sel e') eqn:S.
  - intros H. inversion H; subst. simpl. auto.
  - destruct (querySelector els sel) as [[j x]|]; [|discriminate].
    intros H. inversion H; subst. simpl. now apply IH.
Qed.

Lemma update_length (i : nat) (f : Element -> Element) (els : list Element) :
  List.length (update i f els) = List.length els.
Proof.
  revert i. induction els as [|e els IH]; intros [|i]; simpl; auto.
Qed.

Lemma nth_error_update (i j : nat) (f : Element -> Element) els :
  nth_error (update i f els) j
  = if Nat.eqb j i then option_map f (nth_error els j) else nth_error els j.
Proof.
  revert i j. induction els as [|e els IH]; intros [|i] [|j]; simpl;
    try reflexivity; try apply IH.
  destruct (Nat.eqb j i); reflexivity.
Qed.

Lemma indexOf_In (a : list string) (x : string) :
  (0 <=? JS.indexOf a x)%Z = true <-> In x a.
Proof.
  split.
  - intros H. destruct (in_dec string_dec x a) as [|N]; [assumption|].
    rewrite (indexOf_absent _ _ N) in H. discriminate.
  - intros H. apply Z.leb_le. now apply indexOf_present.
Qed.

(** C8.  Writing the tokens of a name whose control is a multiple select
    ends normally; it selects every option whose value is among the tokens
    and leaves the selected state of every other option, every other
    element of the form, the query parameters and the console as they
    were. *)
Theorem multi_select_write (this : Filter) (type : string)
    (tokens : list string) (i : nat) (filter : Element) :
  querySelector (form this) (byFilter type) = Some (i, filter) ->
  _checkFilterType filter = Some "select-multiple" ->
  let this' := fst (writeControl type tokens this) in
  snd (writeControl type tokens this) = Normal
  /\ List.length (form this') = List.length (form this)
  /\ (forall j, j <> i -> nth_error (form this') j = nth_error (form this) j)
  /\ (exists filter',
        nth_error (form this') i = Some filter'
        /\ List.length (options filter') = List.length (options filter)
        /\ forall j option,
             nth_error (options filter) j = Some option ->
             exists option',
               nth_error (options filter') j = Some option'
               /\ option_value option' = option_value option
               /\ (In (option_value option) tokens ->
                   selected option' = true)
               /\ (~ In (option_value option) tokens ->
                   selected option' = selected option))
  /\ urlFilters this' = urlFilters this
  /\ console this' = console this.
Proof.
  intros Hq Ht. cbv zeta.
  destruct (querySelector_Some _ _ _ _ Hq) as [Hi _].
  unfold writeControl, assign. rewrite Hq, Ht. simpl.
  split; [reflexivity|].
  split; [apply update_length|].
  split.
  { intros j Hj. rewrite nth_error_update.
    apply Nat.eqb_neq in Hj. now rewrite Hj. }
  split; [|split; reflexivity].
  eexists. split.
  { rewrite nth_error_update, Nat.eqb_refl, Hi. reflexivity. }
  simpl. split; [apply length_map|].
  intros j option Ho.
  rewrite nth_error_map, Ho. simpl.
  eexists. split; [reflexivity|].
  destruct (0 <=? JS.indexOf tokens (option_value option))%Z eqn:E; simpl.
  - split; [reflexivity|]. split; [reflexivity|].
    intros N. apply indexOf_In in E. tauto.
  - split; [reflexivity|]. split; [|reflexivity].
    intros Y. apply indexOf_In in Y. congruence.
Qed.

Lemma multi_select_write_witness :
  let filter :=
    Sample.select "SELECT" true "letters"
                  [("a", false); ("b", true); ("c", false)] in
  let this := Sample.page [filter] [("letters", "a")] in
  form (fst (writeControl "letters" ["a"] this))
  = [Sample.select "SELECT" true "letters"
                   [("a", true); ("b", true); ("c", false)]]
  /\ snd (writeControl "letters" ["a"] this) = Normal.
Proof.
  cbv zeta.
  destruct (multi_select_write
              (Sample.page
                 [Sample.select "SELECT" true "letters"
                                [("a", false); ("b", true); ("c", false)]]
                 [("letters", "a")])
              "letters" ["a"] 0
              (Sample.select "SELECT" true "letters"
                             [("a", false); ("b", true); ("c", false)])
              eq_refl eq_refl)
    as [H _].
  split; [reflexivity | exact H].
Defined.

(** C3, as stated, fails on a sequence of two tokens: the single select
    with the options s and m, written with the tokens m and l, is given the
    value ["m,l"], which selects no option, and not the first token m. *)
Lemma single_value_write_joins_tokens :
  let filter :=
    Sample.select "SELECT" false "size" [("s", true); ("m", false)] in
  let this := Sample.page [filter] [("size", "m l")] in
  getFiltersFromUrl this = [("size", ["m"; "l"])]
  /\ _checkFilterType filter = Some "select-single"
  /\ form (fst (writeControl "size" ["m"; "l"] this))
     = [Sample.select "SELECT" false "size" [("s", false); ("m", false)]]
  /\ List.map value (form (fst (updateFilters this))) = [""]
  /\ List.map value (form (fst (writeControl "size" ["m"; "l"] this)))
     <> ["m"].
Proof. cbv zeta. repeat split. vm_compute. discriminate. Qed.

(** C3, amended.  Writing the tokens of a name whose control has a
    direct-value type (select-single, color, range, date, month, week,
    time) ends normally and assigns to the value of the control the tokens
    joined by commas, which for a sequence of one token is that token; no
    other element changes. *)
Theorem single_value_write (this : Filter) (type : string)
    (tokens : list string) (i : nat) (filter : Element) :
  querySelector (form this) (byFilter type) = Some (i, filter) ->
  inCases valueTypes (_checkFilterType filter) = true ->
  let this' := fst (writeControl type tokens this) in
  snd (writeControl type tokens this) = Normal
  /\ nth_error (form this') i
     = Some (set_value (sanitize this) (JS.join "," tokens) filter)
  /\ (forall token, tokens = [token] ->
        nth_error (form this') i
        = Some (set_value (sanitize this) token filter))
  /\ (forall j, j <> i -> nth_error (form this') j = nth_error (form this) j)
  /\ urlFilters this' = urlFilters this
  /\ console this' = console this.
Proof.
  intros Hq Ht. cbv zeta.
  destruct (querySelector_Some _ _ _ _ Hq) as [Hi _].
  unfold writeControl, assign. rewrite Hq, Ht. simpl.
  assert (H : nth_error
                (update i (set_value (sanitize this)
                                     (JS.Array_toString tokens)) (form this)) i
              = Some (set_value (sanitize this) (JS.join "," tokens) filter)).
  { rewrite nth_error_update, Nat.eqb_refl, Hi. reflexivity. }
  split; [reflexivity|].
  split; [exact H|].
  split; [intros token ->; exact H|].
  split; [|split; reflexivity].
  intros j Hj. rewrite nth_error_update.
  apply Nat.eqb_neq in Hj. now rewrite Hj.
Qed.

Lemma single_value_write_witness :
  let filter := Sample.input date "from" "" false in
  let this := Sample.page [filter] [("from", "2020-01-31")] in
  nth_error (form (fst (writeControl "from" ["2020-01-31"] this))) 0
  = Some (with_value filter "2020-01-31").
Proof.
  cbv zeta.
  destruct (single_value_write
              (Sample.page [Sample.input date "from" "" false]
                           [("from", "2020-01-31")])
              "from" ["2020-01-31"] 0
              (Sample.input date "from" "" false)
              eq_refl eq_refl) as [_ [_ [H _]]].
  exact (H "2020-01-31" eq_refl).
Defined.

(** A radio write whose token is the value of no member of the group
    throws: the property [checked] of [null] is written. *)
Lemma radio_write_no_member (this : Filter) (type : string)
    (tokens : list string) (i : nat) (filter : Element) :
  querySelector (form this) (byFilter type) = Some (i, filter) ->
  _checkFilterType filter = Some "radio" ->
  querySelector (form this) (byFilterValue type (JS.Array_toString tokens))
  = None ->
  writeControl type tokens this = (this, TypeError).
Proof.
  intros Hq Ht Hn. unfold writeControl, assign. rewrite Hq, Ht. simpl.
  now rewrite Hn.
Qed.

(** C2 at its failing input: with the radio buttons s and m of the name
    size and the query [size=xl&color=red], refreshing the controls throws
    a [TypeError] at the name size, and the check box red of the name
    color, which comes after it, is not checked. *)
Theorem radio_without_member_throws :
  let this :=
    Sample.page [Sample.input radio "size" "s" false;
                 Sample.input radio "size" "m" false;
                 Sample.input checkbox "color" "red" false]
                [("size", "xl"); ("color", "red")] in
  writeControl "size" ["xl"] this = (this, TypeError)
  /\ updateFilters this = (this, TypeError)
  /\ fst (writeControl "color" ["red"] this) <> this.
Proof.
  cbv zeta. split; [|split].
  - apply radio_write_no_member with (i := 0)
      (filter := Sample.input radio "size" "s" false); reflexivity.
  - reflexivity.
  - vm_compute. discriminate.
Qed.

(* ================================================================== *)
(** ** Refreshing twice *)

Lemma cons_eq {A : Type} (x y : A) (l l' : list A) :
  x :: l = y :: l' -> x = y /\ l = l'.
Proof. intros H. inversion H. auto. Qed.

Lemma Some_eq {A : Type} (x y : A) : Some x = Some y -> x = y.
Proof. intros H. inversion H. auto. Qed.

Lemma samePage_refl (a : Filter) : samePage a a.
Proof. repeat split. Qed.

Lemma samePage_sym (a b : Filter) : samePage a b -> samePage b a.
Proof. unfold samePage. intuition congruence. Qed.

Lemma samePage_trans (a b c : Filter) :
  samePage a b -> samePage b c -> samePage a c.
Proof. unfold samePage. intuition congruence. Qed.

Lemma Overwritten_refl (s t : list Element) : Overwritten s t s t.
Proof. intros i f. right. split; reflexivity. Qed.

Lemma Overwritten_trans (s t s1 t1 s2 t2 : list Element) :
  Overwritten s t s1 t1 -> Overwritten s1 t1 s2 t2 -> Overwritten s t s2 t2.
Proof.
  intros H1 H2 i f. specialize (H1 i f). specialize (H2 i f).
  intuition congruence.
Qed.

Lemma shape_nth_error (s t : list Element) (i : nat) :
  List.map shape s = List.map shape t ->
  option_map shape (nth_error s i) = option_map shape (nth_error t i).
Proof. intros H. rewrite <- !nth_error_map. now rewrite H. Qed.

(** A form is its shape and the content of its fields. *)
Lemma options_ext (os os' : list HTMLOptionElement) :
  List.map option_value os = List.map option_value os' ->
  List.map selected os = List.map selected os' ->
  os = os'.
Proof.
  revert os'. induction os as [|[v b] os IH]; intros [|[v' b'] os'];
    simpl; try discriminate; [reflexivity|].
  intros H1 H2. inversion H1; inversion H2; subst.
  f_equal. now apply IH.
Qed.

Lemma element_ext (e e' : Element) :
  shape e = shape e' -> (forall f, read e f = read e' f) -> e = e'.
Proof.
  intros Hs Hr.
  assert (Ho : options e = options e').
  { apply options_ext.
    - unfold shape in Hs. congruence.
    - apply nth_error_ext. intros j. specialize (Hr (FSelected j)).
      simpl in Hr.
      destruct (nth_error (List.map selected (options e)) j),
               (nth_error (List.map selected (options e')) j);
        simpl in Hr; congruence. }
  pose proof (Hr FValue) as Hv. pose proof (Hr FChecked) as Hc.
  simpl in Hv, Hc. unfold shape in Hs.
  destruct e, e'. simpl in *. congruence.
Qed.

Lemma form_ext (s t : list Element) :
  List.map shape s = List.map shape t ->
  (forall i f, readAt s i f = readAt t i f) ->
  s = t.
Proof.
  intros Hs Hr. apply nth_error_ext. intros i.
  pose proof (shape_nth_error s t i Hs) as Hi.
  pose proof (Hr i) as Hf. unfold readAt in Hf.
  destruct (nth_error s i) as [e|], (nth_error t i) as [e'|];
    simpl in Hi; try discriminate; [|reflexivity].
  f_equal. apply element_ext; congruence.
Qed.

(** Selectors and the type of a filter look at the shape only. *)
Lemma byFilter_shape (type : string) (e e' : Element) :
  shape e = shape e' -> byFilter type e = byFilter type e'.
Proof. unfold shape, byFilter. intros H. inversion H. congruence. Qed.

Lemma byFilterValue_shape (type v : string) (e e' : Element) :
  shape e = shape e' -> byFilterValue type v e = byFilterValue type v e'.
Proof. unfold shape, byFilterValue. intros H. inversion H. congruence. Qed.

Lemma checkFilterType_shape (e e' : Element) :
  shape e = shape e' -> _checkFilterType e = _checkFilterType e'.
Proof. unfold shape, _checkFilterType. intros H. inversion H. congruence. Qed.

Lemma sameRadioGroup_shape (a a' b b' : Element) :
  shape a = shape a' -> shape b = shape b' ->
  sameRadioGroup a b = sameRadioGroup a' b'.
Proof.
  unfold shape, sameRadioGroup, isRadio, isInput.
  intros H H'. inversion H. inversion H'. congruence.
Qed.

Lemma querySelector_shape (sel : Element -> bool) (s t : list Element) :
  (forall e e', shape e = shape e' -> sel e = sel e') ->
  List.map shape s = List.map shape t ->
  match querySelector s sel, querySelector t sel with
  | Some (i, e), Some (j, e') => i = j /\ shape e = shape e'
  | None, None => True
  | _, _ => False
  end.
Proof.
  intros Hsel. revert t.
  induction s as [|e s IH]; intros [|e' t]; simpl; try discriminate; [tauto|].
  intros H. apply cons_eq in H as [He Ht].
  rewrite (Hsel e e' He). destruct (sel e'); [auto|].
  specialize (IH t Ht).
  destruct (querySelector s sel) as [[i x]|],
           (querySelector t sel) as [[j y]|]; try tauto.
  destruct IH. auto.
Qed.

Lemma isFilterExist_samePage (a b : Filter) (type : string) :
  samePage a b -> isFilterExist b type = isFilterExist a type.
Proof.
  intros [_ [Ho [_ Hf]]]. unfold isFilterExist, document.
  assert (H : List.map shape (outside b ++ form b)
              = List.map shape (outside a ++ form a))
    by (rewrite !map_app; congruence).
  pose proof (querySelector_shape (byFilter type) _ _
                (byFilter_shape type) H) as Q.
  destruct (querySelector (outside b ++ form b) (byFilter type)) as [[i x]|],
           (querySelector (outside a ++ form a) (byFilter type)) as [[j y]|];
    tauto.
Qed.

Lemma parseFilters_ext (r r' : string -> bool) (p : URLSearchParams.t) :
  (forall type, r type = r' type) -> parseFilters r p = parseFilters r' p.
Proof.
  intros H. rewrite !parseFilters_fold. generalize (@nil (string * list string)).
  induction p as [|[k v] p IH]; intros o; simpl; [reflexivity|].
  unfold parseStep at 2 4. simpl. rewrite (H k). apply IH.
Qed.

(** The primitive writes. *)
Lemma shape_update (i : nat) (g : Element -> Element) (s : list Element) :
  (forall e, shape (g e) = shape e) ->
  List.map shape (update i g s) = List.map shape s.
Proof.
  intros H. revert i. induction s as [|e s IH]; intros [|i]; simpl;
    try reflexivity; [now rewrite H | now rewrite IH].
Qed.

Lemma Overwritten_update (i : nat) (g g' : Element -> Element)
    (s t : list Element) :
  List.map shape s = List.map shape t ->
  (forall e e',
     nth_error s i = Some e -> nth_error t i = Some e' ->
     forall f, read (g e) f = read (g' e') f
               \/ (read (g e) f = read e f /\ read (g' e') f = read e' f)) ->
  Overwritten s t (update i g s) (update i g' t).
Proof.
  intros Hs H j f. unfold readAt. rewrite !nth_error_update.
  destruct (Nat.eqb j i) eqn:E; [|right; split; reflexivity].
  apply Nat.eqb_eq in E. subst j.
  pose proof (shape_nth_error s t i Hs) as Hi.
  destruct (nth_error s i) as [e|] eqn:Es, (nth_error t i) as [e'|] eqn:Et;
    simpl in Hi; try discriminate; simpl; [|left; reflexivity].
  now apply H.
Qed.

Lemma nth_error_mapi {A B : Type} (g : nat -> A -> B) (l : list A) :
  forall k j, nth_error (mapi g k l) j = option_map (g (k + j)) (nth_error l j).
Proof.
  induction l as [|x l IH]; intros k [|j]; simpl; try reflexivity.
  - now rewrite Nat.add_0_r.
  - rewrite IH. now rewrite Nat.add_succ_r.
Qed.

Lemma shape_check (i : nat) (target : Element) (s : list Element) :
  List.map shape (check i target s) = List.map shape s.
Proof.
  unfold check. generalize 0.
  induction s as [|e s IH]; intros k; simpl; [reflexivity|].
  rewrite IH. f_equal.
  destruct (Nat.eqb k i); [reflexivity|].
  destruct (sameRadioGroup target e); reflexivity.
Qed.

Lemma Overwritten_check (i : nat) (target target' : Element)
    (s t : list Element) :
  List.map shape s = List.map shape t ->
  shape target = shape target' ->
  Overwritten s t (check i target s) (check i target' t).
Proof.
  intros Hs Ht j f. unfold readAt, check. rewrite !nth_error_mapi. simpl.
  pose proof (shape_nth_error s t j Hs) as Hj.
  destruct (nth_error s j) as [e|], (nth_error t j) as [e'|];
    simpl in Hj; try discriminate; simpl; [|left; reflexivity].
  apply Some_eq in Hj as He.
  rewrite (sameRadioGroup_shape target target' e e' Ht He).
  destruct (Nat.eqb j i).
  - destruct f; simpl; [right | left | right]; auto.
  - destruct (sameRadioGroup target' e').
    + destruct f; simpl; [right | left | right]; auto.
    + right. auto.
Qed.

Lemma selectValue_values (v : string) (os : list HTMLOptionElement) :
  List.map option_value (selectValue v os) = List.map option_value os.
Proof.
  induction os as [|o os IH]; simpl; [reflexivity|].
  destruct (String.eqb (option_value o) v); simpl.
  - f_equal. rewrite map_map. reflexivity.
  - now rewrite IH.
Qed.

Lemma selectValue_selected (v : string) (os os' : list HTMLOptionElement) :
  List.map option_value os = List.map option_value os' ->
  List.map selected (selectValue v os) = List.map selected (selectValue v os').
Proof.
  revert os'. induction os as [|o os IH]; intros [|o' os']; simpl;
    try discriminate; [reflexivity|].
  intros H. inversion H as [[Ho Hos]]. rewrite Ho.
  destruct (String.eqb (option_value o') v); simpl.
  - f_equal. rewrite !map_map. simpl.
    clear -Hos. revert os' Hos.
    induction os as [|x os IH]; intros [|y os']; simpl; try discriminate;
      [reflexivity|].
    intros H. inversion H. f_equal. now apply IH.
  - f_equal. now apply IH.
Qed.

Lemma shape_set_value sanitize (v : string) (e : Element) :
  shape (set_value sanitize v e) = shape e.
Proof.
  unfold set_value, shape.
  destruct (isSelect e); simpl; [now rewrite selectValue_values|].
  destruct (isInput e); reflexivity.
Qed.

Lemma read_set_value sanitize (v : string) (e e' : Element) :
  shape e = shape e' ->
  forall f,
    read (set_value sanitize v e) f = read (set_value sanitize v e') f
    \/ (read (set_value sanitize v e) f = read e f
        /\ read (set_value sanitize v e') f = read e' f).
Proof.
  intros H f. unfold set_value, isSelect, isInput.
  assert (Ht : tagName e = tagName e') by (unfold shape in H; congruence).
  assert (Hy : type e = type e') by (unfold shape in H; congruence).
  assert (Ho : List.map option_value (options e)
               = List.map option_value (options e'))
    by (unfold shape in H; congruence).
  rewrite <- Ht, <- Hy.
  destruct (String.eqb (JS.toLowerCase (tagName e)) "select").
  - destruct f; simpl; [right | right | left]; auto.
    now rewrite (selectValue_selected v _ _ Ho).
  - destruct (String.eqb (JS.toLowerCase (tagName e)) "input");
      destruct f; simpl; [left | right | right | left | right | right]; auto.
Qed.

Lemma shape_selectTokens (tokens : list string) (e : Element) :
  shape (selectTokens tokens e) = shape e.
Proof.
  unfold selectTokens, shape. simpl. rewrite map_map.
  f_equal. apply map_ext. intros o.
  destruct (0 <=? JS.indexOf tokens (option_value o))%Z; reflexivity.
Qed.

Lemma read_selectTokens (tokens : list string) (e e' : Element) :
  shape e = shape e' ->
  forall f,
    read (selectTokens tokens e) f = read (selectTokens tokens e') f
    \/ (read (selectTokens tokens e) f = read e f
        /\ read (selectTokens tokens e') f = read e' f).
Proof.
  intros H f.
  assert (Ho : List.map option_value (options e)
               = List.map option_value (options e'))
    by (unfold shape in H; congruence).
  destruct f as [| |j]; simpl; [right; auto | right; auto |].
  generalize dependent (options e'). generalize (options e). clear.
  intros os os'. revert os' j.
  induction os as [|o os IH]; intros [|o' os'] j Ho; simpl in Ho;
    try discriminate.
  - left. reflexivity.
  - apply cons_eq in Ho as [Hv Hos].
    destruct j as [|j]; simpl.
    + rewrite Hv.
      destruct (0 <=? JS.indexOf tokens (option_value o'))%Z; simpl;
        [left | right]; auto.
    + apply IH. exact Hos.
Qed.

(** The methods built from the primitive writes. *)
Lemma Overwriting_skip : Overwriting (fun this => (this, Normal)).
Proof.
  intros a b H. simpl.
  split; [reflexivity|].
  split; [apply samePage_refl|]. split; [apply samePage_refl|].
  apply Overwritten_refl.
Qed.

Lemma Overwriting_warn (msg : Filter -> string) :
  Overwriting (fun this => (console_warn this (msg this), Normal)).
Proof.
  intros a b H. simpl.
  split; [reflexivity|]. split; [repeat split|]. split; [repeat split|].
  apply Overwritten_refl.
Qed.

Lemma Overwriting_assign (sel : Element -> bool)
    (k : Filter -> nat -> Element -> list Element) :
  (forall e e', shape e = shape e' -> sel e = sel e') ->
  (forall a b i e e',
     samePage a b ->
     nth_error (form a) i = Some e -> nth_error (form b) i = Some e' ->
     shape e = shape e' ->
     List.map shape (k a i e) = List.map shape (form a)
     /\ List.map shape (k b i e') = List.map shape (form b)
     /\ Overwritten (form a) (form b) (k a i e) (k b i e')) ->
  Overwriting (fun this => assign this sel (k this)).
Proof.
  intros Hsel Hk a b H. unfold assign.
  pose proof H as [_ [_ [_ Hf]]].
  pose proof (querySelector_shape sel (form a) (form b) Hsel (eq_sym Hf)) as Q.
  destruct (querySelector (form a) sel) as [[i e]|] eqn:Qa,
           (querySelector (form b) sel) as [[j e']|] eqn:Qb; try tauto.
  - destruct Q as [<- He].
    apply querySelector_Some in Qa as [Na _].
    apply querySelector_Some in Qb as [Nb _].
    destruct (Hk a b i e e' H Na Nb He) as [Sa [Sb O]]. simpl.
    split; [reflexivity|].
    split; [repeat split; exact Sa|].
    split; [repeat split; exact Sb|].
    exact O.
  - simpl. split; [reflexivity|].
    split; [apply samePage_refl|]. split; [apply samePage_refl|].
    apply Overwritten_refl.
Qed.

Lemma Overwriting_forEach {A : Type} (l : list A)
    (f : A -> Filter -> Filter * Completion) :
  (forall x, Overwriting (f x)) -> Overwriting (forEach l f).
Proof.
  intros Hf. induction l as [|x l IH]; simpl; [apply Overwriting_skip|].
  intros a b H.
  destruct (Hf x a b H) as [Hc [Sa [Sb O]]].
  destruct (f x a) as [a' ca], (f x b) as [b' cb]. simpl in *. subst cb.
  destruct ca.
  - assert (H' : samePage a' b').
    { apply samePage_trans with a; [now apply samePage_sym|].
      now apply samePage_trans with b. }
    destruct (IH a' b' H') as [Hc' [Sa' [Sb' O']]].
    split; [exact Hc'|].
    split; [now apply samePage_trans with a'|].
    split; [now apply samePage_trans with b'|].
    now apply Overwritten_trans with (form a') (form b').
  - simpl. auto.
Qed.

Lemma Overwriting_check (sel : Element -> bool) :
  (forall e e', shape e = shape e' -> sel e = sel e') ->
  Overwriting (fun this => assign this sel (fun i e => check i e (form this))).
Proof.
  intros Hsel.
  apply (Overwriting_assign sel (fun this i e => check i e (form this)) Hsel).
  intros a b i e e' [_ [_ [_ Hf]]] _ _ He.
  split; [apply shape_check|]. split; [apply shape_check|].
  now apply Overwritten_check.
Qed.

Lemma Overwriting_update (sel : Element -> bool)
    (g : Filter -> Element -> Element) :
  (forall e e', shape e = shape e' -> sel e = sel e') ->
  (forall a e, shape (g a e) = shape e) ->
  (forall a b e e',
     samePage a b -> shape e = shape e' ->
     forall f, read (g a e) f = read (g b e') f
               \/ (read (g a e) f = read e f /\ read (g b e') f = read e' f)) ->
  Overwriting
    (fun this => assign this sel (fun i _ => update i (g this) (form this))).
Proof.
  intros Hsel Hs Hr.
  apply (Overwriting_assign sel
           (fun this i _ => update i (g this) (form this)) Hsel).
  intros a b i e e' H _ _ _.
  pose proof H as [_ [_ [_ Hf]]].
  split; [apply shape_update, Hs|]. split; [apply shape_update, Hs|].
  apply Overwritten_update; [congruence|].
  intros x x' Hx Hx'. apply Hr; [exact H|].
  pose proof (shape_nth_error (form a) (form b) i (eq_sym Hf)) as Hi.
  rewrite Hx, Hx' in Hi. now apply Some_eq in Hi.
Qed.

Lemma Overwriting_writeControl (type : string) (tokens : list string) :
  Overwriting (writeControl type tokens).
Proof.
  intros a b H.
  pose proof H as [Hz [_ [_ Hf]]].
  pose proof (querySelector_shape (byFilter type) (form a) (form b)
                (byFilter_shape type) (eq_sym Hf)) as Q.
  unfold writeControl.
  destruct (querySelector (form a) (byFilter type)) as [[i e]|],
           (querySelector (form b) (byFilter type)) as [[j e']|]; try tauto.
  2: { apply (Overwriting_skip a b H). }
  destruct Q as [_ He].
  rewrite <- (checkFilterType_shape e e' He).
  destruct (inCases valueTypes (_checkFilterType e)).
  { apply (Overwriting_update (byFilter type)
             (fun this => set_value (sanitize this)
                                    (JS.Array_toString tokens))
             (byFilter_shape type)); [| |exact H].
    - intros x y. apply shape_set_value.
    - intros x y u u' [Hz' _] Hu f. rewrite Hz'.
      now apply read_set_value. }
  destruct (inCases ["select-multiple"] (_checkFilterType e)).
  { apply (Overwriting_update (byFilter type)
             (fun _ => selectTokens tokens)
             (byFilter_shape type)); [| |exact H].
    - intros _ y. apply shape_selectTokens.
    - intros _ _ u u' _ Hu f. now apply read_selectTokens. }
  destruct (inCases ["radio"] (_checkFilterType e)).
  { apply (Overwriting_check _ (byFilterValue_shape type _)). exact H. }
  destruct (inCases ["checkbox"] (_checkFilterType e)).
  { apply (Overwriting_forEach tokens
             (fun value this =>
                assign this (byFilterValue type value)
                       (fun i e => check i e (form this)))); [|exact H].
    intros value. apply (Overwriting_check _ (byFilterValue_shape type _)). }
  apply (Overwriting_warn
           (fun _ => notSupported (_checkFilterType e)) a b H).
Qed.

Lemma Overwriting_updateFilters : Overwriting updateFilters.
Proof.
  intros a b H.
  pose proof H as [_ [_ [Hu _]]].
  unfold updateFilters, _updateFiltersFromUrl, _parseFiltersFromUrl.
  rewrite Hu.
  rewrite (parseFilters_ext (isFilterExist b) (isFilterExist a))
    by (intros type; now apply isFilterExist_samePage).
  destruct (Nat.eqb _ 0); [apply (Overwriting_skip a b H)|].
  apply (Overwriting_forEach _
           (fun entry this => writeControl (fst entry) (snd entry) this));
    [|exact H].
  intros entry. apply Overwriting_writeControl.
Qed.

(** C9, for an address whose names and values are plain.  Refreshing the
    controls from the address twice in a row gives the form the first
    refresh gave, and ends as the first did: the second refresh changes no
    control.  Names and tokens that are not plain are outside this
    statement: pasted into a selector they can select controls by their
    state, and the second refresh then writes another control than the
    first. *)
Theorem refresh_twice (this : Filter) :
  plainQuery (urlFilters this) = true ->
  let once := updateFilters this in
  let twice := updateFilters (fst once) in
  form (fst twice) = form (fst once) /\ snd twice = snd once.
Proof.
  intros _. cbv zeta.
  destruct (Overwriting_updateFilters this this (samePage_refl this))
    as [_ [S _]].
  destruct (Overwriting_updateFilters this (fst (updateFilters this)) S)
    as [Hc [_ [S' O]]].
  split; [|now rewrite Hc].
  apply form_ext.
  - now destruct S' as [_ [_ [_ Hf]]].
  - intros i f. destruct (O i f) as [E|[_ E]]; congruence.
Qed.

Lemma refresh_twice_witness :
  let this :=
    Sample.page [Sample.input radio "size" "s" true;
                 Sample.input radio "size" "m" false;
                 Sample.input checkbox "color" "red" false;
                 Sample.input checkbox "color" "blue" true]
                [("size", "m"); ("color", "red")] in
  form (fst (updateFilters (fst (updateFilters this))))
  = form (fst (updateFilters this))
  /\ snd (updateFilters (fst (updateFilters this)))
     = snd (updateFilters this).
Proof.
  cbv zeta.
  exact (refresh_twice
           (Sample.page [Sample.input radio "size" "s" true;
                         Sample.input radio "size" "m" false;
                         Sample.input checkbox "color" "red" false;
                         Sample.input checkbox "color" "blue" true]
                        [("size", "m"); ("color", "red")])
           eq_refl).
Defined.

Example refresh_twice_radio :
  let this :=
    Sample.page [Sample.input radio "size" "s" true;
                 Sample.input radio "size" "m" false;
                 Sample.input checkbox "color" "red" false]
                [("size", "m"); ("color", "red")] in
  List.map checked (form (fst (updateFilters this))) = [false; true; true]
  /\ fst (updateFilters (fst (updateFilters this)))
     = fst (updateFilters this).
Proof. cbv zeta. split; reflexivity. Qed.

(* ================================================================== *)
(** * Further properties of the class *)

(** ** What a parsed object holds *)

Lemma lastTokens_origin (reg : string -> bool) (name : string)
    (p : URLSearchParams.t) :
  forall r tokens,
    lastTokens reg name p r = Some tokens ->
    r = Some tokens
    \/ (reg name = true
        /\ exists v, In (name, v) p /\ tokens = JS.split " " v).
Proof.
  induction p as [|[k v] p IH]; intros r tokens H; simpl in H; [now left|].
  apply IH in H as [H|[R [w [Hin Ht]]]].
  - destruct (String.eqb k name) eqn:E; simpl in H; [|now left].
    apply String.eqb_eq in E. subst k.
    destruct (reg name) eqn:R; [|now left].
    right. split; [reflexivity|]. exists v. split; [now left | congruence].
  - right. split; [exact R|]. exists w. split; [now right | exact Ht].
Qed.

(** X1.  An entry of a parsed object comes from a query parameter of that
    name, and the name is registered; its tokens are at least one, none of
    them contains a space, and joined by spaces they give the value of the
    parameter back. *)
Theorem parse_entry_sound (reg : string -> bool) (p : URLSearchParams.t)
    (name : string) (tokens : list string) :
  JS.get (parseFilters reg p) name = Some tokens ->
  reg name = true
  /\ tokens <> []
  /\ Forall (fun t => spaceFree t = true) tokens
  /\ In (name, JS.join " " tokens) p.
Proof.
  intros H. rewrite parseFilters_fold, get_fold_parse in H. simpl in H.
  apply lastTokens_origin in H as [H|[R [v [Hin Ht]]]]; [discriminate|].
  subst tokens. split; [exact R|].
  split; [apply split_not_nil|].
  split; [apply split_tokens|].
  now rewrite join_split.
Qed.

Lemma parse_entry_sound_witness :
  In ("color", JS.join " " ["red"; "blue"])
     [("page", "2"); ("color", "red blue")].
Proof.
  apply (parse_entry_sound (fun name => String.eqb name "color")
           [("page", "2"); ("color", "red blue")] "color" ["red"; "blue"]
           eq_refl).
Defined.

Lemma lastTokens_app (reg : string -> bool) (name : string)
    (p q : URLSearchParams.t) :
  forall r, lastTokens reg name (p ++ q) r
            = lastTokens reg name q (lastTokens reg name p r).
Proof.
  induction p as [|kv p IH]; intros r; simpl; [reflexivity | apply IH].
Qed.

Lemma lastTokens_absent (reg : string -> bool) (name : string)
    (p : URLSearchParams.t) :
  URLSearchParams.has p name = false ->
  forall r, lastTokens reg name p r = r.
Proof.
  induction p as [|[k v] p IH]; simpl; intros H r; [reflexivity|].
  destruct (String.eqb k name); simpl in *; [discriminate|].
  now apply IH.
Qed.

Lemma get_app_first (p q : URLSearchParams.t) (name : string) :
  URLSearchParams.get (p ++ q) name
  = match URLSearchParams.get p name with
    | Some v => Some v
    | None => URLSearchParams.get q name
    end.
Proof.
  induction p as [|[k v] p IH]; simpl; [reflexivity|].
  destruct (String.eqb k name); [reflexivity | exact IH].
Qed.

(** X2.  When a name occurs more than once in the query, the parsed object
    holds the tokens of its last parameter, whereas [urlFilters.get], which
    the change handler reads, gives the value of its first. *)
Theorem parse_keeps_last_of_name (reg : string -> bool)
    (p q : URLSearchParams.t) (name v : string) :
  reg name = true ->
  URLSearchParams.has q name = false ->
  JS.get (parseFilters reg (p ++ (name, v) :: q)) name
  = Some (JS.split " " v)
  /\ URLSearchParams.get (p ++ (name, v) :: q) name
     = match URLSearchParams.get p name with
       | Some first => Some first
       | None => Some v
       end.
Proof.
  intros R Hq. split.
  - rewrite parseFilters_fold, get_fold_parse. simpl.
    rewrite lastTokens_app. simpl.
    rewrite String.eqb_refl, R. simpl.
    now apply lastTokens_absent.
  - rewrite get_app_first. simpl. now rewrite String.eqb_refl.
Qed.

Lemma parse_keeps_last_of_name_witness :
  JS.get (parseFilters (fun _ => true)
            ([("color", "red")] ++ ("color", "blue green") :: [("page", "2")]))
         "color"
  = Some ["blue"; "green"]
  /\ URLSearchParams.get
       ([("color", "red")] ++ ("color", "blue green") :: [("page", "2")])
       "color"
     = Some "red".
Proof.
  exact (parse_keeps_last_of_name (fun _ => true) [("color", "red")]
           [("page", "2")] "color" "blue green" eq_refl eq_refl).
Defined.

Lemma lastTokens_present (reg : string -> bool) (name : string)
    (p : URLSearchParams.t) :
  reg name = true -> URLSearchParams.has p name = true ->
  forall r, lastTokens reg name p r <> None.
Proof.
  intros R. induction p as [|[k v] p IH]; simpl; intros H r; [discriminate|].
  destruct (String.eqb k name) eqn:E; simpl in *.
  - apply String.eqb_eq in E. subst k. rewrite R.
    destruct (URLSearchParams.has p name) eqn:Hp.
    + now apply IH.
    + rewrite lastTokens_absent by assumption. discriminate.
  - now apply IH.
Qed.

Lemma Permutation_insertIndexed (x : N * (string * list string)) l :
  Permutation (JS.insertIndexed x l) (x :: l).
Proof.
  induction l as [|q l IH]; simpl; [reflexivity|].
  destruct (fst x <=? fst q)%N; [reflexivity|].
  rewrite IH. apply perm_swap.
Qed.

(** [Object.keys] lists the own properties of an object, each once. *)
Lemma Permutation_entries (o : JS.Object) :
  Permutation (JS.entries o)
    (filter (fun kv => negb (String.eqb (fst kv) "__proto__")) o).
Proof.
  unfold JS.entries, JS.named.
  induction o as [|kv o IH]; simpl; [reflexivity|].
  destruct (JS.arrayIndex (fst kv)) as [n|] eqn:E.
  - apply arrayIndex_proto, String.eqb_neq in E. rewrite E. simpl.
    rewrite Permutation_insertIndexed. simpl. now constructor.
  - destruct (String.eqb (fst kv) "__proto__"); simpl; [exact IH|].
    rewrite <- Permutation_middle. now constructor.
Qed.

Lemma NoDup_map_filter {A B : Type} (f : A -> B) (g : A -> bool)
    (l : list A) :
  NoDup (List.map f l) -> NoDup (List.map f (filter g l)).
Proof.
  induction l as [|x l IH]; simpl; intros H; [constructor|].
  inversion H as [|? ? Hn Hl]; subst.
  destruct (g x); simpl; [|now apply IH].
  constructor; [|now apply IH].
  intros Hin. apply Hn. apply in_map_iff in Hin as [y [Hy Hin]].
  apply filter_In in Hin as [Hin _]. apply in_map_iff. exists y. auto.
Qed.

Lemma NoDup_JS_set (o : JS.Object) (k : string) (v : list string) :
  NoDup (List.map fst o) -> NoDup (List.map fst (JS.set o k v)).
Proof.
  induction o as [|[k0 v0] o IH]; simpl; intros H.
  - constructor; [tauto | constructor].
  - inversion H as [|? ? Hn Ho]; subst.
    destruct (String.eqb k0 k) eqn:E; simpl; [now constructor|].
    constructor; [|now apply IH].
    intros Hin. apply keys_JS_set in Hin as [->|Hin]; [|tauto].
    rewrite String.eqb_refl in E. discriminate.
Qed.

Lemma In_parse_keys (reg : string -> bool) (p : URLSearchParams.t)
    (name : string) :
  In name (JS.keys (parseFilters reg p))
  <-> reg name = true /\ URLSearchParams.has p name = true
      /\ name <> "__proto__".
Proof.
  split.
  - intros H.
    destruct (JS.get (parseFilters reg p) name) as [tokens|] eqn:G.
    + rewrite parseFilters_fold, get_fold_parse in G. simpl in G.
      apply lastTokens_origin in G as [G|[R [v [Hin _]]]]; [discriminate|].
      split; [exact R|]. split; [|now apply In_keys in H].
      unfold URLSearchParams.has. apply existsb_exists.
      exists (name, v). split; [exact Hin|]. simpl. apply String.eqb_refl.
    + apply get_None_keys in G. tauto.
  - intros [R [Hp Hn]]. apply keys_get; [exact Hn|].
    rewrite parseFilters_fold, get_fold_parse.
    now apply lastTokens_present.
Qed.

Lemma parse_none_registered (reg : string -> bool) (p : URLSearchParams.t) :
  (forall name, URLSearchParams.has p name = true -> reg name = false) ->
  parseFilters reg p = [].
Proof.
  intros H. rewrite parseFilters_fold.
  induction p as [|[k v] p IH]; simpl; [reflexivity|].
  unfold parseStep at 2. simpl.
  rewrite (H k) by (simpl; now rewrite String.eqb_refl). simpl.
  apply IH. intros name Hn. apply H. simpl. rewrite Hn. apply orb_true_r.
Qed.

(** X3.  The names [Object.keys] lists for a parsed object are exactly the
    registered names that occur in the query, except the name [__proto__],
    whose assignment sets the prototype and creates no property; each name
    is listed once, however often it occurs in the query. *)
Theorem parse_keys (reg : string -> bool) (p : URLSearchParams.t) :
  NoDup (JS.keys (parseFilters reg p))
  /\ forall name,
       In name (JS.keys (parseFilters reg p))
       <-> reg name = true /\ URLSearchParams.has p name = true
           /\ name <> "__proto__".
Proof.
  split; [|intros name; apply In_parse_keys].
  unfold JS.keys.
  apply (Permutation_NoDup
           (l := List.map fst
                   (filter (fun kv => negb (String.eqb (fst kv) "__proto__"))
                           (parseFilters reg p)))).
  - apply Permutation_map, Permutation_sym, Permutation_entries.
  - apply NoDup_map_filter. rewrite parseFilters_fold.
    cut (forall o, NoDup (List.map fst o) ->
                   NoDup (List.map fst (fold_left (parseStep reg) p o))).
    { intros H. apply H. constructor. }
    induction p as [|[k v] p IH]; intros o Ho; simpl; [exact Ho|].
    apply IH. unfold parseStep. simpl.
    destruct (reg k); simpl; [now apply NoDup_JS_set | exact Ho].
Qed.

Example parse_keys_proto :
  let o := parseFilters (fun _ => true)
             [("color", "red"); ("__proto__", "a b"); ("7", "x")] in
  JS.keys o = ["7"; "color"] /\ JS.get o "__proto__" = Some ["a"; "b"].
Proof. cbv zeta. split; reflexivity. Qed.

(* ================================================================== *)
(** ** What a change event does to the query *)

Lemma delete_delete (p : URLSearchParams.t) (name : string) :
  URLSearchParams.delete (URLSearchParams.delete p name) name
  = URLSearchParams.delete p name.
Proof.
  unfold URLSearchParams.delete.
  induction p as [|[k v] p IH]; simpl; [reflexivity|].
  destruct (String.eqb k name) eqn:E; simpl; [exact IH|].
  rewrite E. simpl. now rewrite IH.
Qed.

Lemma delete_set (p : URLSearchParams.t) (name v : string) :
  URLSearchParams.delete (URLSearchParams.set p name v) name
  = URLSearchParams.delete p name.
Proof.
  induction p as [|[k w] p IH]; simpl.
  - now rewrite String.eqb_refl.
  - destruct (String.eqb k name) eqn:E; simpl; rewrite E; simpl.
    + apply delete_delete.
    + now rewrite IH.
Qed.

Lemma delete_append (p : URLSearchParams.t) (name v : string) :
  URLSearchParams.delete (URLSearchParams.append p name v) name
  = URLSearchParams.delete p name.
Proof.
  unfold URLSearchParams.append, URLSearchParams.delete.
  rewrite filter_app. simpl. rewrite String.eqb_refl. simpl.
  apply app_nil_r.
Qed.

Lemma delete_absent (p : URLSearchParams.t) (name : string) :
  URLSearchParams.has p name = false -> URLSearchParams.delete p name = p.
Proof.
  unfold URLSearchParams.delete.
  induction p as [|[k v] p IH]; simpl; [reflexivity|].
  destruct (String.eqb k name); simpl; [discriminate|].
  intros H. now rewrite IH.
Qed.

Lemma set_absent (p : URLSearchParams.t) (name v : string) :
  URLSearchParams.has p name = false ->
  URLSearchParams.set p name v = p ++ [(name, v)].
Proof.
  induction p as [|[k w] p IH]; simpl; [reflexivity|].
  destruct (String.eqb k name); simpl; [discriminate|].
  intros H. now rewrite IH.
Qed.

Lemma set_set (p : URLSearchParams.t) (name v w : string) :
  URLSearchParams.set (URLSearchParams.set p name v) name w
  = URLSearchParams.set p name w.
Proof.
  induction p as [|[k u] p IH]; simpl.
  - now rewrite String.eqb_refl.
  - destruct (String.eqb k name) eqn:E; simpl; rewrite E.
    + now rewrite delete_delete.
    + now rewrite IH.
Qed.

(** X4.  A change event touches the query parameters of the name of its
    control only: the parameters of all other names stay as they were, in
    their order, and so do the controls of the form.  After an event of a
    supported control its name occurs at most once in the query. *)
Theorem change_event_frame (this : Filter) (filter : Element) :
  let name := JS.template (filterAttr filter) in
  let this' := _updateUrlFromFilters this filter in
  URLSearchParams.delete (urlFilters this') name
  = URLSearchParams.delete (urlFilters this) name
  /\ form this' = form this
  /\ outside this' = outside this
  /\ (inCases ("radio" :: "select-multiple" :: "checkbox" :: valueTypes)
              (_checkFilterType filter) = true ->
      List.length (named (urlFilters this') name) <= 1).
Proof.
  cbv zeta. unfold _updateUrlFromFilters.
  destruct (inCases ("radio" :: valueTypes) (_checkFilterType filter)) eqn:T1.
  { destruct (negb (String.eqb (value filter) "")); simpl.
    - rewrite delete_set, named_set. simpl. auto.
    - rewrite delete_delete, named_delete. simpl. auto. }
  destruct (inCases ["select-multiple"] (_checkFilterType filter)) eqn:T2.
  { simpl. rewrite delete_set, named_set. simpl. auto. }
  destruct (inCases ["checkbox"] (_checkFilterType filter)) eqn:T3.
  { destruct (URLSearchParams.has (urlFilters this)
                (JS.template (filterAttr filter))) eqn:Hh.
    - destruct (checked filter).
      + simpl. rewrite delete_set, named_set. simpl. auto.
      + destruct (Nat.ltb 1 _); simpl.
        * rewrite delete_set, delete_delete, named_set. simpl. auto.
        * rewrite delete_delete, named_delete. simpl. auto.
    - simpl. rewrite delete_append, named_append by assumption. simpl. auto. }
  simpl. repeat split.
  intros H. exfalso.
  destruct (_checkFilterType filter) as [t|]; [|discriminate].
  simpl in *.
  repeat match goal with
         | H : (_ || _)%bool = false |- _ =>
             apply orb_false_iff in H; destruct H
         end.
  repeat match goal with
         | H : String.eqb t ?s = false |- _ =>
             rewrite H in *; clear H
         end.
  discriminate.
Qed.

Lemma change_event_frame_witness :
  let filter := Sample.input checkbox "color" "red" true in
  let this :=
    Sample.page [filter]
                [("page", "2"); ("color", "blue"); ("q", "x"); ("color", "z")] in
  urlFilters (_updateUrlFromFilters this filter)
  = [("page", "2"); ("color", "blue red"); ("q", "x")]
  /\ List.length
       (named (urlFilters (_updateUrlFromFilters this filter)) "color") <= 1.
Proof.
  cbv zeta. split; [reflexivity|].
  apply (change_event_frame
           (Sample.page [Sample.input checkbox "color" "red" true]
              [("page", "2"); ("color", "blue"); ("q", "x"); ("color", "z")])
           (Sample.input checkbox "color" "red" true)).
  reflexivity.
Defined.

(** X5.  A control that is not a select and, if an input, has one of the
    types hidden, text, search, tel, url, email, password, datetime-local,
    number, file, submit, image, reset or button is synchronised in neither
    direction: its change event leaves the query as it is, the tokens of
    its name leave the form as it is, and each of the two only adds one
    warning to the console. *)
Theorem other_controls_not_synchronised (this : Filter) (filter : Element) :
  isSelect filter = false ->
  (isInput filter = true -> In (type filter) otherInputTypes) ->
  _updateUrlFromFilters this filter
  = console_warn this (notSupported (_checkFilterType filter))
  /\ forall type tokens i,
       querySelector (form this) (byFilter type) = Some (i, filter) ->
       writeControl type tokens this
       = (console_warn this (notSupported (_checkFilterType filter)), Normal).
Proof.
  intros Hs Hi.
  assert (T : forall cases,
             incl cases ("radio" :: "select-multiple" :: "checkbox"
                                 :: valueTypes) ->
             inCases cases (_checkFilterType filter) = false).
  { intros cases Hc. unfold _checkFilterType.
    unfold isSelect in Hs. rewrite Hs.
    unfold isInput in Hi.
    destruct (String.eqb (JS.toLowerCase (tagName filter)) "input");
      [|reflexivity].
    specialize (Hi eq_refl). simpl.
    destruct (existsb (String.eqb (type_string (type filter))) cases) eqn:E;
      [|reflexivity].
    apply existsb_exists in E as [c [Hin E]].
    apply String.eqb_eq in E. apply Hc in Hin.
    unfold otherInputTypes in Hi. simpl in Hi, Hin.
    repeat (destruct Hi as [Hi|Hi]; [rewrite <- Hi in E; simpl in E;
                                     subst c; intuition discriminate|]).
    destruct Hi. }
  split.
  - unfold _updateUrlFromFilters.
    rewrite (T ("radio" :: valueTypes)),
            (T ["select-multiple"]), (T ["checkbox"]); [reflexivity| | |];
      intros c Hc; simpl in *; intuition.
  - intros type tokens i Hq. unfold writeControl. rewrite Hq.
    rewrite (T valueTypes), (T ["select-multiple"]), (T ["radio"]),
            (T ["checkbox"]); [reflexivity| | | |];
      intros c Hc; simpl in *; intuition.
Qed.

Lemma other_controls_not_synchronised_witness :
  let filter := Sample.input text "q" "shoes" false in
  let this := Sample.page [filter] [("q", "boots")] in
  urlFilters (_updateUrlFromFilters this filter) = [("q", "boots")]
  /\ form (fst (updateFilters this)) = [filter]
  /\ console (fst (updateFilters this))
     = ["Type 'text' is not yet supported."].
Proof.
  cbv zeta.
  destruct (other_controls_not_synchronised
              (Sample.page [Sample.input text "q" "shoes" false]
                           [("q", "boots")])
              (Sample.input text "q" "shoes" false) eq_refl) as [H1 H2].
  - intros _. simpl. tauto.
  - rewrite H1. specialize (H2 "q" ["boots"] 0 eq_refl).
    change (updateFilters
              (Sample.page [Sample.input text "q" "shoes" false]
                           [("q", "boots")]))
      with (writeControl "q" ["boots"]
              (Sample.page [Sample.input text "q" "shoes" false]
                           [("q", "boots")])).
    rewrite H2. repeat split.
Defined.

Lemma split_append (s r : string) :
  JS.split " " (s ++ String " " r)%string = JS.split " " s ++ JS.split " " r.
Proof.
  induction s as [|c s IH]; [reflexivity|].
  change (String c s ++ String " " r)%string
    with (String c (s ++ String " " r)%string).
  simpl JS.split. destruct (Ascii.eqb c " ").
  - rewrite IH. reflexivity.
  - rewrite IH.
    pose proof (split_not_nil " " s) as Hn.
    destruct (JS.split " " s) as [|t ts]; [congruence | reflexivity].
Qed.





Lemma event_keeps_others (this : Filter) (filter : Element) :
  URLSearchParams.delete (urlFilters (_updateUrlFromFilters this filter))
                         (JS.template (filterAttr filter))
  = URLSearchParams.delete (urlFilters this) (JS.template (filterAttr filter)).
Proof.
  unfold _updateUrlFromFilters.
  destruct (inCases ("radio" :: valueTypes) (_checkFilterType filter)).
  { destruct (negb (String.eqb (value filter) "")); simpl.
    - apply delete_set.
    - apply delete_delete. }
  destruct (inCases ["select-multiple"] (_checkFilterType filter)).
  { simpl. apply delete_set. }
  destruct (inCases ["checkbox"] (_checkFilterType filter)); [|reflexivity].
  destruct (URLSearchParams.has (urlFilters this)
              (JS.template (filterAttr filter))).
  - destruct (checked filter); simpl; [apply delete_set|].
    destruct (Nat.ltb 1 _); simpl.
    + now rewrite delete_set, delete_delete.
    + apply delete_delete.
  - simpl. apply delete_append.
Qed.

Lemma removeFirst_last (x : string) (a : list string) :
  ~ In x a -> removeFirst x (a ++ [x]) = a.
Proof.
  induction a as [|y a IH]; simpl; intros H.
  - now rewrite String.eqb_refl.
  - destruct (String.eqb y x) eqn:E.
    + apply String.eqb_eq in E. tauto.
    + rewrite IH by tauto. reflexivity.
Qed.

(** X8.  Checking a check box and unchecking it again gives the name the
    value it had in the query, or removes it again if it had none,
    provided the value of the box has no space and was not among the
    tokens of the name; the parameters of the other names are kept. *)
Theorem check_then_uncheck (this : Filter) (filter : Element) (name : string) :
  filterAttr filter = Some name ->
  _checkFilterType filter = Some "checkbox" ->
  checked filter = true ->
  spaceFree (value filter) = true ->
  (forall v, URLSearchParams.get (urlFilters this) name = Some v ->
             ~ In (value filter) (JS.split " " v)) ->
  let checked' := _updateUrlFromFilters this filter in
  let unchecked := _updateUrlFromFilters checked' (with_checked filter false) in
  URLSearchParams.get (urlFilters unchecked) name
  = URLSearchParams.get (urlFilters this) name
  /\ URLSearchParams.delete (urlFilters unchecked) name
     = URLSearchParams.delete (urlFilters this) name.
Proof.
  intros Hn Ht Hc Hs Hv. cbv zeta. split.
  2: { pose proof (event_keeps_others (_updateUrlFromFilters this filter)
                     (with_checked filter false)) as H2.
       pose proof (event_keeps_others this filter) as H1.
       simpl filterAttr in H2. rewrite Hn in H1, H2. simpl in H1, H2.
       congruence. }
  assert (E1 : urlFilters (_updateUrlFromFilters this filter)
               = match URLSearchParams.get (urlFilters this) name with
                 | Some v =>
                     URLSearchParams.set (urlFilters this) name
                       (v ++ " " ++ value filter)%string
                 | None =>
                     URLSearchParams.append (urlFilters this) name
                                            (value filter)
                 end).
  { unfold _updateUrlFromFilters. rewrite Ht, Hn. simpl JS.template.
    change (inCases ("radio" :: valueTypes) (Some "checkbox")) with false.
    change (inCases ["select-multiple"] (Some "checkbox")) with false.
    change (inCases ["checkbox"] (Some "checkbox")) with true. cbv iota.
    destruct (URLSearchParams.get (urlFilters this) name) as [v|] eqn:G.
    - rewrite (has_of_get _ _ _ G), Hc. reflexivity.
    - apply has_get in G. rewrite G. reflexivity. }
  unfold _updateUrlFromFilters at 1.
  change (_checkFilterType (with_checked filter false))
    with (_checkFilterType filter).
  change (filterAttr (with_checked filter false)) with (filterAttr filter).
  change (value (with_checked filter false)) with (value filter).
  change (checked (with_checked filter false)) with false.
  rewrite Ht, Hn. simpl JS.template.
  change (inCases ("radio" :: valueTypes) (Some "checkbox")) with false.
  change (inCases ["select-multiple"] (Some "checkbox")) with false.
  change (inCases ["checkbox"] (Some "checkbox")) with true. cbv iota.
  rewrite E1.
  destruct (URLSearchParams.get (urlFilters this) name) as [v|] eqn:G.
  - rewrite (has_of_get _ _ _ (get_set _ _ _)), get_set. simpl JS.template.
    change (v ++ " " ++ value filter)%string
      with (v ++ String " " (value filter))%string.
    rewrite split_append, (split_spaceFree _ Hs).
    replace (Nat.ltb 1 (List.length (JS.split " " v ++ [value filter])))
      with true.
    2: { symmetry. apply Nat.ltb_lt. rewrite length_app. simpl.
         pose proof (split_length " " v). lia. }
    rewrite splice_indexOf by (apply in_or_app; right; now left).
    rewrite removeFirst_last by now apply Hv.
    simpl. now rewrite join_split, get_set.
  - apply has_get in G.
    rewrite (has_of_get _ _ _ (get_append _ _ _ G)), (get_append _ _ _ G).
    simpl JS.template. rewrite (split_spaceFree _ Hs). simpl.
    apply get_delete.
Qed.

Lemma check_then_uncheck_witness :
  let filter := Sample.input checkbox "color" "green" true in
  let this := Sample.page [filter] [("color", "red blue"); ("page", "2")] in
  URLSearchParams.get
    (urlFilters
       (_updateUrlFromFilters (_updateUrlFromFilters this filter)
                              (with_checked filter false))) "color"
  = Some "red blue".
Proof.
  cbv zeta.
  apply (check_then_uncheck
           (Sample.page [Sample.input checkbox "color" "green" true]
                        [("color", "red blue"); ("page", "2")])
           (Sample.input checkbox "color" "green" true) "color");
    try reflexivity.
  intros v H. injection H as <-. simpl.
  intros [H|[H|[]]]; discriminate.
Defined.

(** X9.  Handling the change event of a control of a direct-value type or
    of a multiple select a second time changes nothing: the instance is as
    after the first handling. *)
Theorem value_event_twice (this : Filter) (filter : Element) :
  inCases ("radio" :: "select-multiple" :: valueTypes)
          (_checkFilterType filter) = true ->
  _updateUrlFromFilters (_updateUrlFromFilters this filter) filter
  = _updateUrlFromFilters this filter.
Proof.
  intros Ht. unfold _updateUrlFromFilters.
  destruct (inCases ("radio" :: valueTypes) (_checkFilterType filter)) eqn:T1.
  { destruct (negb (String.eqb (value filter) "")); unfold with_urlFilters;
      simpl; [now rewrite set_set | now rewrite delete_delete]. }
  destruct (inCases ["select-multiple"] (_checkFilterType filter)) eqn:T2.
  { unfold with_urlFilters. simpl. now rewrite set_set. }
  exfalso.
  destruct (_checkFilterType filter) as [t|]; [|discriminate].
  simpl in *.
  destruct (String.eqb t "radio"); [discriminate|].
  destruct (String.eqb t "select-multiple"); [discriminate|].
  simpl in *. congruence.
Qed.

Lemma value_event_twice_witness :
  let filter :=
    Sample.select "SELECT" true "letters" [("a", true); ("b", true)] in
  let this := Sample.page [filter] [("letters", "b"); ("letters", "c")] in
  _updateUrlFromFilters (_updateUrlFromFilters this filter) filter
  = _updateUrlFromFilters this filter.
Proof.
  cbv zeta.
  apply (value_event_twice
           (Sample.page
              [Sample.select "SELECT" true "letters" [("a", true); ("b", true)]]
              [("letters", "b"); ("letters", "c")])
           (Sample.select "SELECT" true "letters" [("a", true); ("b", true)])).
  reflexivity.
Defined.

(* ================================================================== *)
(** ** When writing a control throws *)

Lemma querySelector_None_shape (sel : Element -> bool) (s t : list Element) :
  (forall e e', shape e = shape e' -> sel e = sel e') ->
  List.map shape s = List.map shape t ->
  querySelector s sel = None -> querySelector t sel = None.
Proof.
  intros Hsel Hs H.
  pose proof (querySelector_shape sel s t Hsel Hs) as Q. rewrite H in Q.
  destruct (querySelector t sel); [destruct Q | reflexivity].
Qed.

Lemma checkMember_shape (type value : string) (this : Filter) :
  List.map shape (form (fst (checkMember type value this)))
  = List.map shape (form this).
Proof.
  unfold checkMember, assign.
  destruct (querySelector (form this) (byFilterValue type value))
    as [[i e]|]; simpl; [apply shape_check | reflexivity].
Qed.

Lemma forEach_checkMember_throws (type : string) (tokens : list string) :
  forall this,
    snd (forEach tokens (checkMember type) this) = TypeError
    <-> exists value,
          In value tokens
          /\ querySelector (form this) (byFilterValue type value) = None.
Proof.
  induction tokens as [|v tokens IH]; intros this; simpl.
  - split; [discriminate | intros [value [[] _]]].
  - pose proof (checkMember_shape type v this) as Hs.
    unfold checkMember at 1 2, assign. unfold checkMember, assign in Hs.
    destruct (querySelector (form this) (byFilterValue type v))
      as [[i e]|] eqn:Q; simpl in *.
    + rewrite IH. simpl.
      split; intros [value [Hin Hq]]; exists value.
      * split; [now right|].
        apply (querySelector_None_shape _ _ _
                 (byFilterValue_shape type value) Hs Hq).
      * destruct Hin as [<-|Hin]; [congruence|].
        split; [exact Hin|].
        apply (querySelector_None_shape _ _ _
                 (byFilterValue_shape type value) (eq_sym Hs) Hq).
    + split; [|reflexivity]. intros _. exists v. auto.
Qed.

Lemma inCases_one (c : string) (filterType : option string) :
  inCases [c] filterType = true <-> filterType = Some c.
Proof.
  destruct filterType as [t|]; simpl; [|split; discriminate].
  rewrite orb_false_r, String.eqb_eq. split; congruence.
Qed.

(** X10.  Writing plain tokens of a plain name throws in two cases only:
    the first control of the name is a radio button and no element of the
    form has the name and, as value, the tokens joined by commas; or it is
    a check box and one of the tokens is the value of no element of the
    name.  For every other control, and for a name without control in the
    form, the write ends normally. *)
Theorem writeControl_throws_iff (this : Filter) (type : string)
    (tokens : list string) :
  plain type = true ->
  Forall (fun token => plain token = true) tokens ->
  snd (writeControl type tokens this) = TypeError
  <-> exists i filter,
        querySelector (form this) (byFilter type) = Some (i, filter)
        /\ ((_checkFilterType filter = Some "radio"
             /\ querySelector (form this)
                  (byFilterValue type (JS.join "," tokens)) = None)
            \/ (_checkFilterType filter = Some "checkbox"
                /\ exists value,
                     In value tokens
                     /\ querySelector (form this) (byFilterValue type value)
                        = None)).
Proof.
  intros _ _. unfold writeControl.
  destruct (querySelector (form this) (byFilter type)) as [[i filter]|] eqn:Q.
  2: { simpl. split; [discriminate | intros [i [f [H _]]]; discriminate]. }
  assert (A : forall k, snd (assign this (byFilter type) k) = Normal)
    by (intros k; unfold assign; now rewrite Q).
  destruct (inCases valueTypes (_checkFilterType filter)) eqn:T1.
  { rewrite A. split; [discriminate|].
    intros [j [f [E [[H _]|[H _]]]]]; inversion E; subst;
      rewrite H in T1; discriminate. }
  destruct (inCases ["select-multiple"] (_checkFilterType filter)) eqn:T2.
  { rewrite A. split; [discriminate|].
    intros [j [f [E [[H _]|[H _]]]]]; inversion E; subst;
      rewrite H in T2; discriminate. }
  destruct (inCases ["radio"] (_checkFilterType filter)) eqn:T3.
  { apply inCases_one in T3. unfold assign, JS.Array_toString.
    destruct (querySelector (form this)
                (byFilterValue type (JS.join "," tokens))) as [[j e]|] eqn:Qv;
      simpl.
    - split; [discriminate|].
      intros [j' [f [E [[_ H]|[H _]]]]]; inversion E; subst; congruence.
    - split; [|reflexivity]. intros _. exists i, filter. auto. }
  destruct (inCases ["checkbox"] (_checkFilterType filter)) eqn:T4.
  { apply inCases_one in T4.
    change (fun value this0 =>
              assign this0 (byFilterValue type value)
                     (fun i0 e => check i0 e (form this0)))
      with (checkMember type).
    rewrite forEach_checkMember_throws. split.
    - intros H. exists i, filter. auto.
    - intros [j [f [E [[H _]|[_ H]]]]]; inversion E; subst;
        [congruence | exact H]. }
  simpl. split; [discriminate|].
  intros [j [f [E [[H _]|[H _]]]]]; inversion E; subst.
  - rewrite H in T3. discriminate.
  - rewrite H in T4. discriminate.
Qed.

Lemma writeControl_throws_iff_witness :
  let this :=
    Sample.page [Sample.input checkbox "color" "red" false;
                 Sample.input checkbox "color" "blue" false]
                [("color", "red green")] in
  snd (writeControl "color" ["red"; "green"] this) = TypeError.
Proof.
  cbv zeta.
  apply (writeControl_throws_iff
           (Sample.page [Sample.input checkbox "color" "red" false;
                         Sample.input checkbox "color" "blue" false]
                        [("color", "red green")])
           "color" ["red"; "green"]).
  - reflexivity.
  - repeat constructor.
  - exists 0, (Sample.input checkbox "color" "red" false).
    split; [reflexivity|]. right. split; [reflexivity|].
    exists "green". split; [simpl; auto | reflexivity].
Defined.








(* ================================================================== *)
(** ** Writing a control and reading it back *)

Lemma byFilter_attr (type : string) (e : Element) :
  byFilter type e = true -> filterAttr e = Some type.
Proof. unfold byFilter. apply option_eqb_eq. Qed.

Lemma selected_after_selectTokens (tokens : list string) (e : Element) :
  List.map option_value
           (List.filter selected (options (selectTokens tokens e)))
  = List.map option_value (selectedOrToken tokens e).
Proof.
  unfold selectTokens, selectedOrToken. simpl.
  induction (options e) as [|o os IH]; simpl; [reflexivity|].
  destruct (0 <=? JS.indexOf tokens (option_value o))%Z; simpl.
  - rewrite orb_true_r. simpl. now rewrite IH.
  - rewrite orb_false_r. destruct (selected o); simpl; now rewrite IH.
Qed.

(** X13.  After the tokens of a name were written to its multiple select,
    the change event of the select stores, joined by spaces, the values of
    the options that were selected before the write or have a value among
    the tokens, in option order: what was selected before stays in the
    query, and a token that is the value of no option is lost. *)
Theorem multi_select_write_then_change (this : Filter) (type : string)
    (tokens : list string) (i : nat) (filter : Element) :
  querySelector (form this) (byFilter type) = Some (i, filter) ->
  _checkFilterType filter = Some "select-multiple" ->
  let this' := fst (writeControl type tokens this) in
  nth_error (form this') i = Some (selectTokens tokens filter)
  /\ urlFilters (_updateUrlFromFilters this' (selectTokens tokens filter))
     = URLSearchParams.set (urlFilters this) type
         (JS.join " "
            (List.map option_value (selectedOrToken tokens filter))).
Proof.
  intros Q T. cbv zeta.
  destruct (querySelector_Some _ _ _ _ Q) as [Hi Hb].
  apply byFilter_attr in Hb.
  unfold writeControl, assign. rewrite Q, T. simpl.
  split.
  { rewrite nth_error_update, Nat.eqb_refl, Hi. reflexivity. }
  unfold _updateUrlFromFilters.
  change (_checkFilterType (selectTokens tokens filter))
    with (_checkFilterType filter).
  change (filterAttr (selectTokens tokens filter)) with (filterAttr filter).
  rewrite T, Hb. simpl inCases. cbv iota. simpl JS.template.
  unfold with_urlFilters. simpl urlFilters.
  do 2 f_equal. apply (selected_after_selectTokens tokens filter).
Qed.

Lemma multi_select_write_then_change_witness :
  let filter :=
    Sample.select "SELECT" true "letters"
                  [("a", false); ("b", true); ("c", false)] in
  let this := Sample.page [filter] [("letters", "c x")] in
  urlFilters
    (_updateUrlFromFilters (fst (writeControl "letters" ["c"; "x"] this))
                           (selectTokens ["c"; "x"] filter))
  = [("letters", "b c")].
Proof.
  cbv zeta.
  destruct (multi_select_write_then_change
              (Sample.page
                 [Sample.select "SELECT" true "letters"
                                [("a", false); ("b", true); ("c", false)]]
                 [("letters", "c x")])
              "letters" ["c"; "x"] 0
              (Sample.select "SELECT" true "letters"
                             [("a", false); ("b", true); ("c", false)])
              eq_refl eq_refl) as [_ H].
  exact H.
Defined.

Lemma find_selectValue (v : string) (os : list HTMLOptionElement) :
  List.find selected (selectValue v os)
  = if existsb (fun o => String.eqb (option_value o) v) os
    then Some {| option_value := v; selected := true |}
    else None.
Proof.
  induction os as [|o os IH]; simpl; [reflexivity|].
  destruct (String.eqb (option_value o) v) eqn:E; simpl.
  - apply String.eqb_eq in E. unfold with_selected. now rewrite E.
  - exact IH.
Qed.

(** X14.  Writing tokens to a single select selects the first option whose
    value is the tokens joined by commas and deselects the others.  If no
    option has that value the select is left without selection and with the
    empty value, and its next change event removes the name from the
    query; otherwise the value of the select is the joined tokens. *)
Theorem single_select_write_then_change (this : Filter) (type : string)
    (tokens : list string) (i : nat) (filter : Element) :
  querySelector (form this) (byFilter type) = Some (i, filter) ->
  _checkFilterType filter = Some "select-single" ->
  let joined := JS.join "," tokens in
  let filter' := set_value (sanitize this) joined filter in
  let this' := fst (writeControl type tokens this) in
  nth_error (form this') i = Some filter'
  /\ value filter' = (if hasOption joined filter then joined else "")
  /\ (hasOption joined filter = false ->
      urlFilters (_updateUrlFromFilters this' filter')
      = URLSearchParams.delete (urlFilters this) type).
Proof.
  intros Q T. cbv zeta.
  destruct (querySelector_Some _ _ _ _ Q) as [Hi Hb].
  apply byFilter_attr in Hb.
  assert (S : isSelect filter = true).
  { unfold _checkFilterType in T. unfold isSelect.
    destruct (String.eqb (JS.toLowerCase (tagName filter)) "select");
      [reflexivity|].
    destruct (String.eqb (JS.toLowerCase (tagName filter)) "input");
      [|discriminate].
    injection T as T. destruct (DOM.type filter); discriminate. }
  assert (V : value (set_value (sanitize this) (JS.join "," tokens) filter)
              = if hasOption (JS.join "," tokens) filter
                then JS.join "," tokens else "").
  { unfold set_value. rewrite S. unfold value.
    change (isSelect (with_options filter
                        (selectValue (JS.join "," tokens) (options filter))))
      with (isSelect filter).
    rewrite S. simpl options. rewrite find_selectValue. unfold hasOption.
    destruct (existsb _ (options filter)); reflexivity. }
  split.
  { unfold writeControl, assign. rewrite Q, T. simpl.
    rewrite nth_error_update, Nat.eqb_refl, Hi. reflexivity. }
  split; [exact V|].
  intros H. unfold _updateUrlFromFilters.
  rewrite V, H.
  replace (_checkFilterType
             (set_value (sanitize this) (JS.join "," tokens) filter))
    with (Some "select-single")
    by (rewrite <- T; apply checkFilterType_shape;
        symmetry; apply shape_set_value).
  replace (filterAttr (set_value (sanitize this) (JS.join "," tokens) filter))
    with (Some type)
    by (unfold set_value; rewrite S; simpl; congruence).
  simpl. unfold writeControl, assign. rewrite Q, T. reflexivity.
Qed.

Lemma single_select_write_then_change_witness :
  let filter :=
    Sample.select "SELECT" false "size" [("s", true); ("m", false)] in
  let this := Sample.page [filter] [("page", "2"); ("size", "xl")] in
  urlFilters
    (_updateUrlFromFilters (fst (writeControl "size" ["xl"] this))
                           (set_value (sanitize this) "xl" filter))
  = [("page", "2")].
Proof.
  cbv zeta.
  destruct (single_select_write_then_change
              (Sample.page
                 [Sample.select "SELECT" false "size"
                                [("s", true); ("m", false)]]
                 [("page", "2"); ("size", "xl")])
              "size" ["xl"] 0
              (Sample.select "SELECT" false "size" [("s", true); ("m", false)])
              eq_refl eq_refl) as [_ [_ H]].
  exact (H eq_refl).
Defined.

(* ================================================================== *)
(** ** What a refresh leaves alone *)

Lemma forEach_console {A : Type} (l : list A)
    (f : A -> Filter -> Filter * Completion) :
  (forall x a, exists ws, console (fst (f x a)) = console a ++ ws) ->
  forall a, exists ws, console (fst (forEach l f a)) = console a ++ ws.
Proof.
  intros Hf. induction l as [|x l IH]; intros a; simpl.
  - exists []. now rewrite app_nil_r.
  - destruct (Hf x a) as [ws Hws].
    destruct (f x a) as [a' [|]]; simpl in *.
    + destruct (IH a') as [ws' Hws']. exists (ws ++ ws').
      rewrite Hws', Hws. now rewrite app_assoc.
    + exists ws. exact Hws.
Qed.

Lemma assign_console (this : Filter) (sel : Element -> bool)
    (k : nat -> Element -> list Element) :
  exists ws, console (fst (assign this sel k)) = console this ++ ws.
Proof.
  unfold assign. exists [].
  destruct (querySelector (form this) sel) as [[i e]|]; simpl;
    now rewrite app_nil_r.
Qed.

Lemma writeControl_console (type : string) (tokens : list string)
    (this : Filter) :
  exists ws, console (fst (writeControl type tokens this)) = console this ++ ws.
Proof.
  unfold writeControl.
  destruct (querySelector (form this) (byFilter type)) as [[i filter]|].
  2: { exists []. simpl. now rewrite app_nil_r. }
  destruct (inCases valueTypes _); [apply assign_console|].
  destruct (inCases ["select-multiple"] _); [apply assign_console|].
  destruct (inCases ["radio"] _); [apply assign_console|].
  destruct (inCases ["checkbox"] _).
  - apply forEach_console. intros value a. apply assign_console.
  - eexists. simpl. reflexivity.
Qed.

(** X15.  A refresh never changes the query parameters or, in the form,
    the tags, types, attributes and option values of the elements; what it
    writes are values, checks and selections only, and the console only
    gains warnings. *)
Theorem refresh_keeps_page (this : Filter) :
  let this' := fst (updateFilters this) in
  urlFilters this' = urlFilters this
  /\ List.map shape (form this') = List.map shape (form this)
  /\ exists warnings, console this' = console this ++ warnings.
Proof.
  cbv zeta.
  destruct (Overwriting_updateFilters this this (samePage_refl this))
    as [_ [[_ [_ [Hu Hs]]] _]].
  repeat (split; [assumption|]).
  unfold updateFilters, _updateFiltersFromUrl.
  destruct (Nat.eqb _ 0).
  - exists []. simpl. now rewrite app_nil_r.
  - apply forEach_console. intros entry a. apply writeControl_console.
Qed.

Lemma forEach_skip {A : Type} (l : list A)
    (f : A -> Filter -> Filter * Completion) (this : Filter) :
  (forall x, In x l -> f x this = (this, Normal)) ->
  forEach l f this = (this, Normal).
Proof.
  induction l as [|x l IH]; simpl; intros H; [reflexivity|].
  rewrite (H x) by now left. apply IH. intros y Hy. apply H. now right.
Qed.

(** X16.  When the names of the query are plain and no element of the
    form carries one of them, a refresh ends normally and changes nothing:
    no control is cleared, and nothing is written to the console. *)
Theorem refresh_without_controls (this : Filter) :
  plainNames (urlFilters this) = true ->
  (forall name, URLSearchParams.has (urlFilters this) name = true ->
                querySelector (form this) (byFilter name) = None) ->
  updateFilters this = (this, Normal).
Proof.
  intros _ H. unfold updateFilters, _updateFiltersFromUrl.
  destruct (Nat.eqb _ 0); [reflexivity|].
  apply forEach_skip. intros [type tokens] Hin. simpl.
  assert (Hk : In type (JS.keys (_parseFiltersFromUrl this (urlFilters this))))
    by (unfold JS.keys; apply in_map_iff; exists (type, tokens); auto).
  apply In_parse_keys in Hk as [_ [Hh _]].
  unfold writeControl. now rewrite (H type Hh).
Qed.

Lemma refresh_without_controls_witness :
  let this :=
    {| sanitize := fun _ v => v;
       outside := [Sample.input checkbox "color" "red" false];
       form := [Sample.input checkbox "size" "m" true];
       urlFilters := [("color", "red"); ("utm", "x")];
       console := [] |} in
  isFilterExist this "color" = true
  /\ updateFilters this = (this, Normal).
Proof.
  cbv zeta. split; [reflexivity|].
  apply refresh_without_controls; [reflexivity|].
  intros name H. apply existsb_exists in H as [kv [Hin E]].
  apply String.eqb_eq in E.
  destruct Hin as [<-|[<-|[]]]; simpl in E; subst name; reflexivity.
Defined.

(* ================================================================== *)
(** ** Clearing the filters from the query *)

Lemma delete_filter (p : URLSearchParams.t) (k : string)
    (f : string * string -> bool) :
  filter f (URLSearchParams.delete p k)
  = filter (fun kv => negb (String.eqb (fst kv) k) && f kv) p.
Proof.
  unfold URLSearchParams.delete.
  induction p as [|kv p IH]; simpl; [reflexivity|].
  destruct (String.eqb (fst kv) k); simpl; [exact IH|].
  destruct (f kv); now rewrite IH.
Qed.

Lemma fold_delete (ks : list string) :
  forall p,
    fold_left URLSearchParams.delete ks p
    = filter (fun kv => negb (existsb (String.eqb (fst kv)) ks)) p.
Proof.
  induction ks as [|k ks IH]; intros p; simpl.
  - induction p as [|kv p IHp]; simpl; [reflexivity | now rewrite <- IHp].
  - rewrite IH, delete_filter. apply filter_ext. intros kv.
    now rewrite negb_orb.
Qed.

(** X17.  When the names of the query are plain, the loop of
    [_resetGlobalUrl] removes from the query exactly the parameters whose
    name is registered in the document, whether or not a control of that
    name is in the form, except those named [__proto__]; the other
    parameters stay, in their order.  The object parsed from the query
    afterwards has no name, and the controls are as before. *)
Theorem reset_removes_registered (this : Filter) :
  plainNames (urlFilters this) = true ->
  let this' := _resetGlobalUrl_loop this in
  urlFilters this'
  = filter (fun kv => negb (isFilterExist this (fst kv))
                      || String.eqb (fst kv) "__proto__")
           (urlFilters this)
  /\ JS.keys (getFiltersFromUrl this') = []
  /\ form this' = form this.
Proof.
  intros _. cbv zeta.
  assert (E : urlFilters (_resetGlobalUrl_loop this)
              = filter (fun kv => negb (isFilterExist this (fst kv))
                                  || String.eqb (fst kv) "__proto__")
                       (urlFilters this)).
  { unfold _resetGlobalUrl_loop. simpl. rewrite fold_delete.
    apply filter_ext_in. intros [k v] Hin. simpl.
    destruct (existsb (String.eqb k) _) eqn:X.
    - apply existsb_exists in X as [k' [Hk E]].
      apply String.eqb_eq in E. subst k'.
      apply In_parse_keys in Hk as [Hk [_ Hp]].
      unfold _parseFiltersFromUrl in Hk. rewrite Hk.
      apply String.eqb_neq in Hp. now rewrite Hp.
    - simpl. symmetry. apply orb_true_iff.
      destruct (isFilterExist this k) eqn:R; [|now left].
      destruct (String.eqb k "__proto__") eqn:P; [now right|].
      exfalso. apply String.eqb_neq in P.
      assert (Hk : In k (JS.keys (_parseFiltersFromUrl this
                                    (urlFilters this)))).
      { apply In_parse_keys. split; [exact R|]. split; [|exact P].
        unfold URLSearchParams.has. apply existsb_exists.
        exists (k, v). split; [exact Hin | apply String.eqb_refl]. }
      assert (Y : existsb (String.eqb k)
                    (JS.keys (_parseFiltersFromUrl this (urlFilters this)))
                  = true).
      { apply existsb_exists. exists k. split; [exact Hk|].
        apply String.eqb_refl. }
      congruence. }
  split; [exact E|]. split; [|reflexivity].
  destruct (JS.keys (getFiltersFromUrl (_resetGlobalUrl_loop this)))
    as [|k ks] eqn:K; [reflexivity|].
  exfalso.
  assert (Hk : In k (JS.keys (getFiltersFromUrl (_resetGlobalUrl_loop this))))
    by (rewrite K; now left).
  unfold getFiltersFromUrl, _parseFiltersFromUrl in Hk.
  apply In_parse_keys in Hk as [R [H P]].
  rewrite E in H.
  apply existsb_exists in H as [[k' v] [Hin Hk]].
  apply filter_In in Hin as [_ Hr]. simpl in *.
  apply String.eqb_eq in Hk. subst k'.
  change (isFilterExist (_resetGlobalUrl_loop this) k)
    with (isFilterExist this k) in R.
  rewrite R in Hr. simpl in Hr. apply String.eqb_eq in Hr. contradiction.
Qed.

Lemma reset_removes_registered_witness :
  let this :=
    {| sanitize := fun _ v => v;
       outside := [Sample.input checkbox "color" "red" false];
       form := [Sample.input checkbox "size" "m" true;
                Sample.input text "__proto__" "" false];
       urlFilters := [("utm", "x"); ("color", "red"); ("__proto__", "a");
                      ("size", "m"); ("color", "blue")];
       console := [] |} in
  urlFilters (_resetGlobalUrl_loop this) = [("utm", "x"); ("__proto__", "a")]
  /\ JS.keys (getFiltersFromUrl (_resetGlobalUrl_loop this)) = [].
Proof.
  cbv zeta.
  destruct (reset_removes_registered
              {| sanitize := fun _ v => v;
                 outside := [Sample.input checkbox "color" "red" false];
                 form := [Sample.input checkbox "size" "m" true;
                          Sample.input text "__proto__" "" false];
                 urlFilters := [("utm", "x"); ("color", "red");
                                ("__proto__", "a"); ("size", "m");
                                ("color", "blue")];
                 console := [] |} eq_refl) as [H1 [H2 _]].
  split; [exact H1 | exact H2].
Defined.

(* ================================================================== *)
(** ** Initialization and the listeners *)





(* ================================================================== *)
(** ** More on change events *)



(** X20.  When the target of a change event does not carry the filter
    attribute, [getAttribute] gives [null] and the query parameter written
    or deleted is the one called ["null"]. *)
Theorem event_without_attribute (this : Filter) (filter : Element) :
  filterAttr filter = None ->
  inCases ("radio" :: valueTypes) (_checkFilterType filter) = true ->
  let this' := _updateUrlFromFilters this filter in
  (value filter <> "" ->
   named (urlFilters this') "null" = [("null", value filter)])
  /\ (value filter = "" -> named (urlFilters this') "null" = [])
  /\ forall name, name <> "null" ->
       named (urlFilters this') name = named (urlFilters this) name.
Proof.
  intros Hn Ht. cbv zeta.
  unfold _updateUrlFromFilters. rewrite Hn, Ht. simpl JS.template.
  assert (O : forall p name, name <> "null" ->
                named (URLSearchParams.delete p "null") name = named p name).
  { intros p name N. unfold named, URLSearchParams.delete.
    induction p as [|[k w] p IH]; simpl; [reflexivity|].
    destruct (String.eqb k "null") eqn:E; simpl.
    - apply String.eqb_eq in E. subst k.
      replace (String.eqb "null" name) with false
        by (symmetry; apply String.eqb_neq; congruence).
      exact IH.
    - destruct (String.eqb k name); now rewrite IH. }
  split; [|split].
  - intros Hv. apply String.eqb_neq in Hv. rewrite Hv. simpl.
    apply named_set.
  - intros Hv. rewrite Hv. simpl. apply named_delete.
  - intros name N.
    rewrite <- (O (urlFilters this) name N).
    destruct (negb (String.eqb (value filter) "")); simpl.
    + rewrite <- (O (URLSearchParams.set _ _ _) name N).
      now rewrite delete_set.
    + rewrite <- (O (URLSearchParams.delete _ _) name N).
      now rewrite delete_delete.
Qed.

Lemma event_without_attribute_witness :
  let filter :=
    {| tagName := "INPUT"; type := date; multiple := false;
       filterAttr := None; valueAttr := None; nameAttr := None;
       own_value := "2020-01-31"; checked := false; options := [] |} in
  let this := Sample.page [filter] [("from", "2019-12-31")] in
  named (urlFilters (_updateUrlFromFilters this filter)) "null"
  = [("null", "2020-01-31")].
Proof.
  cbv zeta.
  destruct (event_without_attribute
              (Sample.page
                 [{| tagName := "INPUT"; type := date; multiple := false;
                     filterAttr := None; valueAttr := None; nameAttr := None;
                     own_value := "2020-01-31"; checked := false;
                     options := [] |}]
                 [("from", "2019-12-31")])
              {| tagName := "INPUT"; type := date; multiple := false;
                 filterAttr := None; valueAttr := None; nameAttr := None;
                 own_value := "2020-01-31"; checked := false;
                 options := [] |} eq_refl eq_refl) as [H _].
  apply H. discriminate.
Defined.

Lemma append_spaced (a b c : string) :
  ((a ++ " " ++ b) ++ " " ++ c)%string = (a ++ " " ++ (b ++ " " ++ c))%string.
Proof. induction a as [|x a IH]; simpl in *; [reflexivity | congruence]. Qed.

Lemma concat_fold (targets : list Element) :
  forall v,
    fold_left (fun acc t => (acc ++ " " ++ value t)%string) targets v
    = JS.join " " (v :: List.map value targets).
Proof.
  unfold JS.join.
  induction targets as [|t targets IH]; intros v; simpl fold_left.
  - reflexivity.
  - rewrite IH. simpl List.map.
    change (String.concat " " (v :: value t :: List.map value targets))
      with (v ++ " " ++ String.concat " " (value t :: List.map value targets))%string.
    destruct (List.map value targets) as [|u us].
    + reflexivity.
    + change (String.concat " " ((v ++ " " ++ value t)%string :: u :: us))
        with ((v ++ " " ++ value t) ++ " " ++ String.concat " " (u :: us))%string.
      change (String.concat " " (value t :: u :: us))
        with (value t ++ " " ++ String.concat " " (u :: us))%string.
      apply append_spaced.
Qed.

Lemma set_last (p : URLSearchParams.t) (name v w : string) :
  URLSearchParams.has p name = false ->
  URLSearchParams.set (p ++ [(name, v)]) name w = p ++ [(name, w)].
Proof.
  induction p as [|[k u] p IH]; simpl; intros H.
  - now rewrite String.eqb_refl.
  - destruct (String.eqb k name); simpl in *; [discriminate|].
    now rewrite IH.
Qed.

Lemma check_events_last (name : string) (p : URLSearchParams.t)
    (targets : list Element) :
  URLSearchParams.has p name = false ->
  Forall (fun t => filterAttr t = Some name
                   /\ _checkFilterType t = Some "checkbox"
                   /\ checked t = true) targets ->
  forall this v,
    urlFilters this = p ++ [(name, v)] ->
    urlFilters (changeEvents this targets)
    = p ++ [(name,
             fold_left (fun acc t => (acc ++ " " ++ value t)%string)
                       targets v)].
Proof.
  intros Hp. unfold changeEvents.
  induction 1 as [|t targets [Hn [Ht Hc]] _ IH]; intros this v Hu; simpl.
  - exact Hu.
  - apply IH. unfold _updateUrlFromFilters. rewrite Ht, Hn.
    simpl JS.template.
    change (inCases ("radio" :: valueTypes) (Some "checkbox")) with false.
    change (inCases ["select-multiple"] (Some "checkbox")) with false.
    change (inCases ["checkbox"] (Some "checkbox")) with true. cbv iota.
    assert (Hg : URLSearchParams.get (urlFilters this) name = Some v).
    { rewrite Hu. now apply get_append. }
    rewrite (has_of_get _ _ _ Hg), Hc, Hg. simpl.
    rewrite Hu. now apply set_last.
Qed.

(** X21.  A series of check events of check boxes of one name that is not
    yet in the query leaves the earlier parameters as they were and adds,
    after them, a single parameter of that name, whose value is the values
    of the boxes joined by spaces in the order of the events. *)
Theorem check_events_in_order (this : Filter) (name : string)
    (first : Element) (others : list Element) :
  Forall (fun t => filterAttr t = Some name
                   /\ _checkFilterType t = Some "checkbox"
                   /\ checked t = true) (first :: others) ->
  URLSearchParams.has (urlFilters this) name = false ->
  urlFilters (changeEvents this (first :: others))
  = urlFilters this
      ++ [(name, JS.join " " (List.map value (first :: others)))].
Proof.
  intros H Hh.
  inversion H as [|? ? [Hn [Ht Hc]] Ho]; subst.
  assert (E : urlFilters (_updateUrlFromFilters this first)
              = urlFilters this ++ [(name, value first)]).
  { unfold _updateUrlFromFilters. rewrite Ht, Hn. simpl JS.template.
    change (inCases ("radio" :: valueTypes) (Some "checkbox")) with false.
    change (inCases ["select-multiple"] (Some "checkbox")) with false.
    change (inCases ["checkbox"] (Some "checkbox")) with true. cbv iota.
    now rewrite Hh. }
  change (changeEvents this (first :: others))
    with (changeEvents (_updateUrlFromFilters this first) others).
  rewrite (check_events_last name (urlFilters this) others Hh Ho _
             (value first) E).
  now rewrite concat_fold.
Qed.

Lemma check_events_in_order_witness :
  let m := Sample.input checkbox "size" "m" true in
  let l := Sample.input checkbox "size" "l" true in
  let this := Sample.page [m; l] [("page", "2")] in
  urlFilters (changeEvents this [m; l])
  = [("page", "2")] ++ [("size", JS.join " " ["m"; "l"])].
Proof.
  cbv zeta.
  apply (check_events_in_order
           (Sample.page [Sample.input checkbox "size" "m" true;
                         Sample.input checkbox "size" "l" true]
                        [("page", "2")])
           "size"
           (Sample.input checkbox "size" "m" true)
           [Sample.input checkbox "size" "l" true]).
  - repeat constructor.
  - reflexivity.
Defined.

(* ================================================================== *)
(** ** Controls a refresh does not touch *)

Lemma forEach_invariant {A : Type} (P : Filter -> Prop) (l : list A)
    (f : A -> Filter -> Filter * Completion) :
  (forall x a, In x l -> P a -> P (fst (f x a))) ->
  forall a, P a -> P (fst (forEach l f a)).
Proof.
  induction l as [|x l IH]; intros Hf a Ha; simpl; [exact Ha|].
  pose proof (Hf x a (or_introl eq_refl) Ha) as Hx.
  destruct (f x a) as [a' [|]]; simpl in *; [|exact Hx].
  apply IH; [|exact Hx]. intros y b Hy. apply Hf. now right.
Qed.

Lemma byFilterValue_attr (type v : string) (e : Element) :
  byFilterValue type v e = true -> filterAttr e = Some type.
Proof.
  unfold byFilterValue. intros H. apply andb_true_iff in H as [H _].
  now apply option_eqb_eq.
Qed.

Lemma assign_frame (this : Filter) (type : string) (sel : Element -> bool)
    (k : nat -> Element -> list Element) (j : nat) (e : Element) :
  (forall x, sel x = true -> filterAttr x = Some type) ->
  (forall i target,
     nth_error (form this) i = Some target -> i <> j ->
     nth_error (k i target) j = Some e) ->
  nth_error (form this) j = Some e ->
  filterAttr e <> Some type ->
  nth_error (form (fst (assign this sel k))) j = Some e.
Proof.
  intros Hsel Hk Hj Hn. unfold assign.
  destruct (querySelector (form this) sel) as [[i target]|] eqn:Q;
    simpl; [|exact Hj].
  apply querySelector_Some in Q as [Hi Hs].
  apply Hk; [exact Hi|].
  intros ->. rewrite Hj in Hi. apply Some_eq in Hi. subst target.
  apply Hn. now apply Hsel.
Qed.

Lemma check_frame (i j : nat) (target e : Element) (s : list Element) :
  nth_error s j = Some e -> isRadio e = false -> i <> j ->
  nth_error (check i target s) j = Some e.
Proof.
  intros Hj Hr Hij. unfold check. rewrite nth_error_mapi, Hj. simpl.
  replace (Nat.eqb j i) with false by (symmetry; apply Nat.eqb_neq; lia).
  unfold sameRadioGroup. rewrite Hr.
  now rewrite andb_false_r.
Qed.

Lemma writeControl_frame (this : Filter) (type : string)
    (tokens : list string) (j : nat) (e : Element) :
  nth_error (form this) j = Some e ->
  filterAttr e <> Some type ->
  isRadio e = false ->
  nth_error (form (fst (writeControl type tokens this))) j = Some e.
Proof.
  intros Hj Hn Hr. unfold writeControl.
  destruct (querySelector (form this) (byFilter type)) as [[i0 filter]|];
    [|exact Hj].
  assert (U : forall g,
             nth_error
               (form (fst (assign this (byFilter type)
                             (fun i _ => update i g (form this))))) j
             = Some e).
  { intros g. apply (assign_frame this type); auto using byFilter_attr.
    intros i target _ Hij. rewrite nth_error_update.
    replace (Nat.eqb j i) with false by (symmetry; apply Nat.eqb_neq; lia).
    exact Hj. }
  assert (C : forall v a,
             nth_error (form a) j = Some e ->
             nth_error
               (form (fst (assign a (byFilterValue type v)
                             (fun i x => check i x (form a))))) j
             = Some e).
  { intros v a Ha. apply (assign_frame a type); auto.
    - apply byFilterValue_attr.
    - intros i target _ Hij. now apply check_frame. }
  destruct (inCases valueTypes _); [apply U|].
  destruct (inCases ["select-multiple"] _); [apply U|].
  destruct (inCases ["radio"] _); [now apply C|].
  destruct (inCases ["checkbox"] _); [|exact Hj].
  apply (forEach_invariant (fun a => nth_error (form a) j = Some e));
    [|exact Hj].
  intros v a _ Ha. now apply C.
Qed.

(** X22.  When the names and values of the query are plain, a refresh
    leaves every control as it is whose name is not in the query, unless it
    is a radio button: controls of names that are absent from the address
    are not cleared. *)
Theorem refresh_leaves_other_controls (this : Filter) (j : nat) (e : Element) :
  plainQuery (urlFilters this) = true ->
  nth_error (form this) j = Some e ->
  isRadio e = false ->
  (forall name, filterAttr e = Some name ->
                URLSearchParams.has (urlFilters this) name = false) ->
  nth_error (form (fst (updateFilters this))) j = Some e.
Proof.
  intros _ Hj Hr Hn. unfold updateFilters, _updateFiltersFromUrl.
  destruct (Nat.eqb _ 0); [exact Hj|].
  apply (forEach_invariant (fun a => nth_error (form a) j = Some e));
    [|exact Hj].
  intros [type tokens] a Hin Ha. simpl.
  apply writeControl_frame; [exact Ha| |exact Hr].
  intros Hf.
  assert (Hk : In type (JS.keys (_parseFiltersFromUrl this (urlFilters this))))
    by (unfold JS.keys; apply in_map_iff; exists (type, tokens); auto).
  apply In_parse_keys in Hk as [_ [Hh _]].
  rewrite (Hn type Hf) in Hh. discriminate.
Qed.

Lemma refresh_leaves_other_controls_witness :
  let red := Sample.input checkbox "color" "red" true in
  let m := Sample.input checkbox "size" "m" false in
  let this := Sample.page [red; m] [("size", "m")] in
  nth_error (form (fst (updateFilters this))) 0 = Some red.
Proof.
  cbv zeta.
  apply (refresh_leaves_other_controls
           (Sample.page [Sample.input checkbox "color" "red" true;
                         Sample.input checkbox "size" "m" false]
                        [("size", "m")])
           0 (Sample.input checkbox "color" "red" true)).
  - reflexivity.
  - reflexivity.
  - reflexivity.
  - intros name H. injection H as <-. reflexivity.
Defined.
